(** * WebGL Lab: the numeric core (mat4.ts and sphere.ts)

    A shallow embedding of [src/core/math/mat4.ts] and
    [src/core/mesh/sphere.ts], and the properties the specification states
    about them; then of what the pages compute with them
    ([src/pages/transform01.ts], [src/pages/sphere01.ts]), of the helpers
    that call the WebGL context ([src/core/gl/shader.ts],
    [src/core/gl/texture.ts]) and of the router ([src/router.ts]), with
    further properties of the code.

    Conventions of the embedding.

    - A JavaScript number that the code uses as a count or an index
      ([stacks], [slices], loop counters, array offsets) is a [Z]: the
      statements are about integer arguments, in the range where the
      arithmetic of counts is exact.
    - Every other number is a value of a carrier [num] with the operations
      the code applies to it (classes [Number] and [MathObject]): the code
      is embedded once, for any arithmetic.  [fround] is the conversion a
      [Float32Array] applies on every store.  Two arithmetics are given:
      binary64 floating point with stores rounded to binary32, which is
      what the program runs on, and the real numbers, which give the exact
      value of every expression the program evaluates.  A statement of
      exact equality, or one "within floating-point tolerance" for every
      input, is examined in floating point, where a number beyond the
      range of a [Float32Array] is stored as an infinity; what holds of
      the exact values is proved for the reals.  The [Math] object of the
      reals has the sine and cosine of analysis; that of floating point
      takes the implementation's approximations as parameters, ECMAScript
      fixing the values at zero, NaN and the infinities only.
    - A typed array is a list of fixed length, written by index with
      stdpp's list insert: as in JavaScript, a store outside the array does
      nothing.  A [Uint16Array] keeps a stored integer modulo 2^16.
    - [console.warn] appends a line to the console, and a [RangeError]
      ends the call: [js A] is the state-and-error monad of both.
    - [new Float32Array(len)] and [new Uint16Array(len)] raise a
      [RangeError] when [len] is negative or above [2^53 - 1], and when
      the host does not provide the bytes: what a host provides is a
      parameter ([Memory]), of which only this is assumed, that a buffer of
      at most a mebibyte is always provided.
    - The sphere mesh is embedded a second time with its arrays as objects
      of a store ([sphere_objects]), to tell the arrays of two calls
      apart; the two embeddings are proved to agree.
    - The parameters that the source gives a default ([radius = 1],
      [stacks = 32], [slices = 64]; [tz = 0], [sz = 1]) are always passed.
    - Code that calls the WebGL context is a tree of calls, each going on
      from what the context answers; a run against a context gives the
      calls in order, with their answers, and the value returned or the
      message of the [Error] thrown.  What a context answers is not fixed:
      the statements hold for every context.
    - The router's effects on the page (the history, the outlet, the call
      of a renderer) are listed in order; [location.hash] is an argument. *)

From Corelib Require Import PrimFloat FloatOps SpecFloat FloatAxioms.
From Stdlib Require Import ZArith List Lia Reals Lra.
From stdpp Require Import base numbers list strings pretty.

Local Open Scope Z_scope.

(** ** Numbers *)

Class Number (num : Type) := {
  of_Z : Z → num;            (* an integer used as a number, e.g. [slice] in [slice / slices] *)
  NaN : num;                 (* what an absent array element yields in arithmetic *)
  num_add : num → num → num;
  num_mul : num → num → num;
  num_div : num → num → num;
  fround : num → num         (* the conversion of a Float32Array store *)
}.

(** What the code uses of the [Math] object. *)
Class MathObject (num : Type) := {
  Math_sin : num → num;
  Math_cos : num → num;
  Math_PI : num
}.

(** Subtraction and the unary minus, which [rotationZ] and [ortho] use. *)
Class Signed (num : Type) := {
  num_sub : num → num → num;
  num_neg : num → num
}.

(** [x ? a : b] on a number: zero and NaN are falsy. *)
Class Truthy (num : Type) := {
  truthy : num → bool
}.

(** Arithmetic on numbers is written [⊕], [⊗] and [⊘]; [+], [*] and [/]
    stay those of the integers. *)
Infix "⊕" := num_add (at level 50, left associativity).
Infix "⊗" := num_mul (at level 40, left associativity).
Infix "⊘" := num_div (at level 40, left associativity).
Infix "⊖" := num_sub (at level 50, left associativity).

(** *** Floating point: binary64, and binary32 in a [Float32Array] *)

Definition float_of_Z (z : Z) : float :=
  SF2Prim (binary_normalize prec emax z 0 false).

(** [Math.fround]: the nearest binary32 value, ties to even; beyond the
    binary32 range an infinity, and NaN, infinities and zeros as they are. *)
Definition float_fround (x : float) : float :=
  match Prim2SF x with
  | S754_finite s m e => SF2Prim (binary_normalize 24 128 (cond_Zopp s (Zpos m)) e s)
  | _ => x
  end.

Global Instance Number_float : Number float := {|
  of_Z := float_of_Z;
  NaN := nan;
  num_add := PrimFloat.add;
  num_mul := PrimFloat.mul;
  num_div := PrimFloat.div;
  fround := float_fround
|}.

Global Instance Signed_float : Signed float := {|
  num_sub := PrimFloat.sub;
  num_neg := PrimFloat.opp
|}.

Global Instance Truthy_float : Truthy float := {|
  truthy := λ x, negb (is_zero x || is_nan x)
|}.

(** The [Math] object in floating point.  ECMAScript fixes [Math.PI] and
    the sine and cosine of NaN, of the infinities and of the zeros; any
    other value is implementation-approximated, and is here a parameter. *)
Definition Math_float (sin_approx cos_approx : float → float) : MathObject float := {|
  Math_sin := λ x,
    if is_nan x || is_infinity x then nan
    else if is_zero x then x else sin_approx x;
  Math_cos := λ x,
    if is_nan x || is_infinity x then nan
    else if is_zero x then 1%float else cos_approx x;
  Math_PI := 0x1.921fb54442d18p+1%float
|}.

(** An implementation of little precision, the first terms of the two
    series, to run the code on. *)
Definition series_sin (x : float) : float :=
  (x - x * x * x / 6 + x * x * x * x * x / 120)%float.

Definition series_cos (x : float) : float :=
  (1 - x * x / 2 + x * x * x * x / 24)%float.

Definition series_math : MathObject float := Math_float series_sin series_cos.

(** *** Exact arithmetic: the real numbers

    No rounding on a store, and the sine, cosine and pi of analysis.  The
    reals have no NaN; the value given for it is read only outside an
    array. *)

Global Instance Number_R : Number R := {|
  of_Z := IZR;
  NaN := 0%R;
  num_add := Rplus;
  num_mul := Rmult;
  num_div := Rdiv;
  fround := λ x, x
|}.

Global Instance Math_R : MathObject R := {|
  Math_sin := sin;
  Math_cos := cos;
  Math_PI := PI
|}.

Global Instance Signed_R : Signed R := {|
  num_sub := Rminus;
  num_neg := Ropp
|}.

Global Instance Truthy_R : Truthy R := {|
  truthy := λ x, if Req_dec_T x 0 then false else true
|}.

(** ** Typed arrays *)

Definition to_uint16 (v : Z) : Z := v mod 65536.

Section typed_arrays.
Context {A : Type}.

(** [a[i] = v] on a typed array: ignored unless [0 <= i < a.length]. *)
Definition ta_set (a : list A) (i : Z) (v : A) : list A :=
  if decide (0 ≤ i) then <[Z.to_nat i := v]> a else a.

(** [a[i]] read as [Some v], or [None] for [undefined]. *)
Definition ta_lookup (a : list A) (i : Z) : option A :=
  if decide (0 ≤ i) then a !! Z.to_nat i else None.

End typed_arrays.

Section number_arrays.
Context {num : Type} `{!Number num}.

(** [new Float32Array(n)] for a literal length: [n] zeros. *)
Definition Float32Array_alloc (n : nat) : list num := replicate n (of_Z 0).

Definition f32_set (a : list num) (i : Z) (v : num) : list num :=
  ta_set a i (fround v).

(** An element read inside an arithmetic expression. *)
Definition f32_get (a : list num) (i : Z) : num :=
  default NaN (ta_lookup a i).

End number_arrays.

Definition Uint16Array_alloc (n : nat) : list Z := replicate n 0.

Definition u16_set (a : list Z) (i : Z) (v : Z) : list Z :=
  ta_set a i (to_uint16 v).

(** ** Loops *)

(** [n] iterations of [body], the counter starting at [i] and stepping by one. *)
Fixpoint for_loop {S : Type} (n : nat) (i : Z) (body : Z → S → S) (s : S) : S :=
  match n with
  | O => s
  | S n' => for_loop n' (i + 1) body (body i s)
  end.

(** [for (let i = 0; i < hi; i++) body] *)
Definition for_below {S : Type} (hi : Z) (body : Z → S → S) (s : S) : S :=
  for_loop (Z.to_nat hi) 0 body s.

(** [for (let i = 0; i <= hi; i++) body] *)
Definition for_upto {S : Type} (hi : Z) (body : Z → S → S) (s : S) : S :=
  for_loop (Z.to_nat (hi + 1)) 0 body s.

(** ** Effects: the console and exceptions *)

Inductive exn := RangeError.

Definition js (A : Type) : Type := list string → list string * (exn + A).

Global Instance js_ret : MRet js := λ A a out, (out, inr a).

Global Instance js_bind : MBind js := λ A B f m out,
  match m out with
  | (out', inl e) => (out', inl e)
  | (out', inr a) => f a out'
  end.

Definition throw {A : Type} (e : exn) : js A := λ out, (out, inl e).

Definition console_warn (msg : string) : js () := λ out, (out ++ [msg], inr ()).

(** The memory of the host: whether it provides a buffer of so many
    bytes.  One of at most a mebibyte it always provides. *)
Class Memory := {
  allocates : Z → bool;
  allocates_small : ∀ bytes, 0 ≤ bytes ≤ 1048576 → allocates bytes = true
}.

(** The host with the least memory, and the host that never runs out. *)
Definition least_memory : Memory := {|
  allocates bytes := bool_decide (bytes ≤ 1048576);
  allocates_small bytes H := bool_decide_eq_true_2 _ (proj2 H)
|}.

Definition endless_memory : Memory := {|
  allocates bytes := true;
  allocates_small bytes H := eq_refl
|}.

(** Whether [new T(len)] succeeds: [len] must be an index, from 0 to
    [2^53 - 1], and the host must provide [len * T.BYTES_PER_ELEMENT]
    bytes. *)
Definition can_allocate {memory : Memory} (bytes_per_element len : Z) : bool :=
  bool_decide (0 ≤ len ≤ 9007199254740991) && allocates (len * bytes_per_element).

(** [new Float32Array(len)] and [new Uint16Array(len)] for a computed
    length: a [RangeError] when the array cannot be allocated. *)
Definition Float32Array_new {num : Type} `{!Number num} {memory : Memory} (len : Z) :
    js (list num) :=
  if can_allocate 4 len then mret (Float32Array_alloc (Z.to_nat len))
  else throw RangeError.

Definition Uint16Array_new {memory : Memory} (len : Z) : js (list Z) :=
  if can_allocate 2 len then mret (Uint16Array_alloc (Z.to_nat len))
  else throw RangeError.

(** ** src/core/math/mat4.ts *)

Module mat4.
Section mat4.
Context {num : Type} `{!Number num}.

(** Column-major: element (row, col) is at index [col * 4 + row]. *)
Definition Mat4 : Type := list num.

Local Notation "a .[ i ]" := (f32_get a i) (at level 1, format "a .[ i ]").

Definition identity : Mat4 :=
  let m := Float32Array_alloc 16 in
  let m := f32_set m 0 (of_Z 1) in
  let m := f32_set m 5 (of_Z 1) in
  let m := f32_set m 10 (of_Z 1) in
  let m := f32_set m 15 (of_Z 1) in
  m.

Definition multiply (a b : Mat4) : Mat4 :=
  let out := Float32Array_alloc 16 in
  for_below 4 (λ col out,
    for_below 4 (λ row out,
      f32_set out (col * 4 + row)
        (a.[row]      ⊗ b.[col * 4]     ⊕
         a.[4 + row]  ⊗ b.[col * 4 + 1] ⊕
         a.[8 + row]  ⊗ b.[col * 4 + 2] ⊕
         a.[12 + row] ⊗ b.[col * 4 + 3])) out) out.

Definition translation (tx ty tz : num) : Mat4 :=
  let m := identity in
  let m := f32_set m 12 tx in
  let m := f32_set m 13 ty in
  let m := f32_set m 14 tz in
  m.

Definition scaling (sx sy sz : num) : Mat4 :=
  let m := identity in
  let m := f32_set m 0 sx in
  let m := f32_set m 5 sy in
  let m := f32_set m 10 sz in
  m.

End mat4.
Global Arguments Mat4 : clear implicits.

Section mat4_signed.
Context {num : Type} `{!Number num, !MathObject num, !Signed num}.

Definition rotationZ (rad : num) : Mat4 num :=
  let c := Math_cos rad in
  let s := Math_sin rad in
  let m := identity in
  let m := f32_set m 0 c in
  let m := f32_set m 1 s in
  let m := f32_set m 4 (num_neg s) in
  let m := f32_set m 5 c in
  m.

Definition ortho (left right bottom top near far : num) : Mat4 num :=
  let m := Float32Array_alloc 16 in
  let rl := right ⊖ left in
  let tb := top ⊖ bottom in
  let fn := far ⊖ near in
  let m := f32_set m 0 (of_Z 2 ⊘ rl) in
  let m := f32_set m 5 (of_Z 2 ⊘ tb) in
  let m := f32_set m 10 (of_Z (-2) ⊘ fn) in
  let m := f32_set m 12 (num_neg (right ⊕ left) ⊘ rl) in
  let m := f32_set m 13 (num_neg (top ⊕ bottom) ⊘ tb) in
  let m := f32_set m 14 (num_neg (far ⊕ near) ⊘ fn) in
  let m := f32_set m 15 (of_Z 1) in
  m.

End mat4_signed.
End mat4.

(** ** src/core/mesh/sphere.ts *)

Module sphere.

Record SphereMesh (num : Type) := {
  positions : list num;
  uvs : list num;
  indices : list Z;
  vertexCount : Z;
  indexCount : Z
}.
Global Arguments positions {num}.
Global Arguments uvs {num}.
Global Arguments indices {num}.
Global Arguments vertexCount {num}.
Global Arguments indexCount {num}.

Section sphere.
Context {num : Type} `{!Number num, !MathObject num} {memory : Memory}.

Definition oversize_warning (vertexCount : Z) : string :=
  "[createSphereMesh] vertexCount(" +:+ pretty vertexCount +:+
  ") > 65535. Clamping for WebGL1 Uint16 index compatibility.".

(** The body of the inner vertex loop; the state is [(positions, uvs, vi)]. *)
Definition vertex_step (radius : num) (stacks slices stack : Z)
    (sinPhi cosPhi : num) (slice : Z)
    (st : list num * list num * Z) : list num * list num * Z :=
  let '(positions, uvs, vi) := st in
  let theta := of_Z slice ⊘ of_Z slices ⊗ of_Z 2 ⊗ Math_PI in
  let sinTheta := Math_sin theta in
  let cosTheta := Math_cos theta in
  let x := radius ⊗ sinPhi ⊗ cosTheta in
  let y := radius ⊗ cosPhi in
  let z := radius ⊗ sinPhi ⊗ sinTheta in
  let positions := f32_set positions (vi * 3) x in
  let positions := f32_set positions (vi * 3 + 1) y in
  let positions := f32_set positions (vi * 3 + 2) z in
  let uvs := f32_set uvs (vi * 2) (of_Z slice ⊘ of_Z slices) in
  let uvs := f32_set uvs (vi * 2 + 1) (of_Z stack ⊘ of_Z stacks) in
  (positions, uvs, vi + 1).

(** The body of the outer vertex loop. *)
Definition stack_step (radius : num) (stacks slices : Z) (stack : Z)
    (st : list num * list num * Z) : list num * list num * Z :=
  let phi := of_Z stack ⊘ of_Z stacks ⊗ Math_PI in
  let sinPhi := Math_sin phi in
  let cosPhi := Math_cos phi in
  for_upto slices (vertex_step radius stacks slices stack sinPhi cosPhi) st.

(** The body of the inner index loop; the state is [(indices, ii)]. *)
Definition cell_step (slices stack slice : Z) (st : list Z * Z) : list Z * Z :=
  let '(indices, ii) := st in
  let first := stack * (slices + 1) + slice in
  let second := first + slices + 1 in
  let indices := u16_set indices ii first in
  let indices := u16_set indices (ii + 1) second in
  let indices := u16_set indices (ii + 2) (first + 1) in
  let indices := u16_set indices (ii + 3) (first + 1) in
  let indices := u16_set indices (ii + 4) second in
  let indices := u16_set indices (ii + 5) (second + 1) in
  (indices, ii + 6).

Definition createSphereMesh (radius : num) (stacks slices : Z) : js (SphereMesh num) :=
  let vertexCount := (stacks + 1) * (slices + 1) in
  _ ← (if decide (vertexCount > 65535)
       then console_warn (oversize_warning vertexCount)
       else mret ());
  positions ← Float32Array_new (vertexCount * 3);
  uvs ← Float32Array_new (vertexCount * 2);
  let '(positions, uvs, vi) :=
    for_upto stacks (stack_step radius stacks slices) (positions, uvs, 0) in
  let indexCount := stacks * slices * 6 in
  indices ← Uint16Array_new indexCount;
  let '(indices, ii) :=
    for_below stacks (λ stack,
      for_below slices (cell_step slices stack)) (indices, 0) in
  mret {| positions := positions; uvs := uvs; indices := indices;
          vertexCount := vertexCount; indexCount := indexCount |}.

End sphere.
End sphere.

(** ** src/core/mesh/sphere.ts once more, with arrays as objects

    In [sphere] an array is the list of its elements.  Here it is an
    object of a store: [new] adds an array to the store and returns a
    reference to it, and [a[i] = v] changes the array that the reference
    names.  A call starts from a state, the console and the store, and
    leaves one: two calls can be told apart by the arrays they allocate. *)

Module sphere_objects.
Section sphere_objects.
Context {num : Type} `{!Number num, !MathObject num} {memory : Memory}.

Record State := {
  console : list string;
  float32_arrays : list (list num);
  uint16_arrays : list (list Z)
}.

(** A reference to an array: its place in the store. *)
Definition Ref : Type := nat.

Definition jso (A : Type) : Type := State → State * (exn + A).

Global Instance jso_ret : MRet jso := λ A a σ, (σ, inr a).

Global Instance jso_bind : MBind jso := λ A B f m σ,
  match m σ with
  | (σ', inl e) => (σ', inl e)
  | (σ', inr a) => f a σ'
  end.

Definition console_warn (msg : string) : jso () := λ σ,
  ({| console := console σ ++ [msg];
      float32_arrays := float32_arrays σ;
      uint16_arrays := uint16_arrays σ |}, inr ()).

Definition Float32Array_new (len : Z) : jso Ref := λ σ,
  if can_allocate 4 len then
    ({| console := console σ;
        float32_arrays := float32_arrays σ ++ [Float32Array_alloc (Z.to_nat len)];
        uint16_arrays := uint16_arrays σ |},
     inr (length (float32_arrays σ)))
  else (σ, inl RangeError).

Definition Uint16Array_new (len : Z) : jso Ref := λ σ,
  if can_allocate 2 len then
    ({| console := console σ;
        float32_arrays := float32_arrays σ;
        uint16_arrays := uint16_arrays σ ++ [Uint16Array_alloc (Z.to_nat len)] |},
     inr (length (uint16_arrays σ)))
  else (σ, inl RangeError).

(** [a[i] = v] on the array that [a] names. *)
Definition f32_store (a : Ref) (i : Z) (v : num) (σ : State) : State :=
  {| console := console σ;
     float32_arrays := alter (λ elements, f32_set elements i v) a (float32_arrays σ);
     uint16_arrays := uint16_arrays σ |}.

Definition u16_store (a : Ref) (i : Z) (v : Z) (σ : State) : State :=
  {| console := console σ;
     float32_arrays := float32_arrays σ;
     uint16_arrays := alter (λ elements, u16_set elements i v) a (uint16_arrays σ) |}.

(** A loop, which raises nothing, as a step of the call. *)
Definition loop {A : Type} (body : State → State * A) : jso A := λ σ,
  let '(σ, a) := body σ in (σ, inr a).

Record SphereMesh := {
  positions : Ref;
  uvs : Ref;
  indices : Ref;
  vertexCount : Z;
  indexCount : Z
}.

(** The body of the inner vertex loop; the state is the store and [vi]. *)
Definition vertex_step (radius : num) (stacks slices stack : Z)
    (sinPhi cosPhi : num) (positions uvs : Ref) (slice : Z)
    (st : State * Z) : State * Z :=
  let '(σ, vi) := st in
  let theta := of_Z slice ⊘ of_Z slices ⊗ of_Z 2 ⊗ Math_PI in
  let sinTheta := Math_sin theta in
  let cosTheta := Math_cos theta in
  let x := radius ⊗ sinPhi ⊗ cosTheta in
  let y := radius ⊗ cosPhi in
  let z := radius ⊗ sinPhi ⊗ sinTheta in
  let σ := f32_store positions (vi * 3) x σ in
  let σ := f32_store positions (vi * 3 + 1) y σ in
  let σ := f32_store positions (vi * 3 + 2) z σ in
  let σ := f32_store uvs (vi * 2) (of_Z slice ⊘ of_Z slices) σ in
  let σ := f32_store uvs (vi * 2 + 1) (of_Z stack ⊘ of_Z stacks) σ in
  (σ, vi + 1).

Definition stack_step (radius : num) (stacks slices : Z) (positions uvs : Ref)
    (stack : Z) (st : State * Z) : State * Z :=
  let phi := of_Z stack ⊘ of_Z stacks ⊗ Math_PI in
  let sinPhi := Math_sin phi in
  let cosPhi := Math_cos phi in
  for_upto slices (vertex_step radius stacks slices stack sinPhi cosPhi positions uvs) st.

(** The body of the inner index loop; the state is the store and [ii]. *)
Definition cell_step (slices : Z) (indices : Ref) (stack slice : Z)
    (st : State * Z) : State * Z :=
  let '(σ, ii) := st in
  let first := stack * (slices + 1) + slice in
  let second := first + slices + 1 in
  let σ := u16_store indices ii first σ in
  let σ := u16_store indices (ii + 1) second σ in
  let σ := u16_store indices (ii + 2) (first + 1) σ in
  let σ := u16_store indices (ii + 3) (first + 1) σ in
  let σ := u16_store indices (ii + 4) second σ in
  let σ := u16_store indices (ii + 5) (second + 1) σ in
  (σ, ii + 6).

Definition createSphereMesh (radius : num) (stacks slices : Z) : jso SphereMesh :=
  let vertexCount := (stacks + 1) * (slices + 1) in
  _ ← (if decide (vertexCount > 65535)
       then console_warn (sphere.oversize_warning vertexCount)
       else mret ());
  positions ← Float32Array_new (vertexCount * 3);
  uvs ← Float32Array_new (vertexCount * 2);
  vi ← loop (λ σ,
    for_upto stacks (stack_step radius stacks slices positions uvs) (σ, 0));
  let indexCount := stacks * slices * 6 in
  indices ← Uint16Array_new indexCount;
  ii ← loop (λ σ,
    for_below stacks (λ stack,
      for_below slices (cell_step slices indices stack)) (σ, 0));
  mret {| positions := positions; uvs := uvs; indices := indices;
          vertexCount := vertexCount; indexCount := indexCount |}.

End sphere_objects.
Global Arguments State : clear implicits.
End sphere_objects.

(** ** src/pages/transform01.ts: the matrix of a frame *)

Module transform01.
Section transform01.
Context {num : Type} `{!Number num, !MathObject num, !Signed num}.

Record TransformState := {
  tx : num;
  ty : num;
  rotDeg : num;
  scale : num
}.

Definition degToRad (deg : num) : num := deg ⊗ Math_PI ⊘ of_Z 180.

(** [S], [R], [T] and [mvp] of [frame]; [scaling] and [translation] are
    called with two arguments, the third being its default. *)
Definition frame_mvp (state : TransformState) : mat4.Mat4 num :=
  let S := mat4.scaling (scale state) (scale state) (of_Z 1) in
  let R := mat4.rotationZ (degToRad (rotDeg state)) in
  let T := mat4.translation (tx state) (ty state) (of_Z 0) in
  mat4.multiply T (mat4.multiply R S).

End transform01.
Global Arguments TransformState : clear implicits.
End transform01.

(** ** src/pages/sphere01.ts: the clock of a frame *)

Module sphere01.
Section sphere01.
Context {num : Type} `{!Number num, !Signed num, !Truthy num}.

(** The head of [frame(now)], on the variables [angle] and [lastTime] of
    [renderSphere01]: [dt = lastTime ? (now - lastTime) / 1000 : 0],
    [lastTime = now], [angle += dt * 0.5].  The literal 0.5 is [1 / 2]. *)
Definition frame_clock (now : num) (st : num * num) : num * num :=
  let '(angle, lastTime) := st in
  let dt := if truthy lastTime then (now ⊖ lastTime) ⊘ of_Z 1000 else of_Z 0 in
  let lastTime := now in
  let angle := angle ⊕ dt ⊗ (of_Z 1 ⊘ of_Z 2) in
  (angle, lastTime).

(** The frames of the given time stamps, in order, from [angle = 0] and
    [lastTime = 0]. *)
Definition run_frames (stamps : list num) : num * num :=
  foldl (λ st now, frame_clock now st) (of_Z 0, of_Z 0) stamps.

End sphere01.
End sphere01.

(** ** src/core/gl/shader.ts and src/core/gl/texture.ts: calls to the WebGL context *)

Module webgl.

(** A [WebGLShader], [WebGLProgram] or [WebGLTexture] object, or an image:
    known by its identity. *)
Definition handle := Z.

(** The constants of the context that the code reads, as in
    [gl.VERTEX_SHADER]. *)
Record GLenum := {
  VERTEX_SHADER : Z; FRAGMENT_SHADER : Z; COMPILE_STATUS : Z; LINK_STATUS : Z;
  TEXTURE_2D : Z; UNPACK_FLIP_Y_WEBGL : Z; RGBA : Z; UNSIGNED_BYTE : Z;
  TEXTURE_WRAP_S : Z; TEXTURE_WRAP_T : Z;
  TEXTURE_MIN_FILTER : Z; TEXTURE_MAG_FILTER : Z;
  CLAMP_TO_EDGE : Z; REPEAT : Z; LINEAR : Z; NEAREST : Z
}.

(** The methods of the context that the code calls. *)
Inductive gl_call :=
| gl_createShader (type : Z)
| gl_shaderSource (shader : handle) (source : string)
| gl_compileShader (shader : handle)
| gl_getShaderParameter (shader : handle) (pname : Z)
| gl_getShaderInfoLog (shader : handle)
| gl_deleteShader (shader : handle)
| gl_createProgram
| gl_attachShader (program shader : handle)
| gl_linkProgram (program : handle)
| gl_getProgramParameter (program : handle) (pname : Z)
| gl_getProgramInfoLog (program : handle)
| gl_deleteProgram (program : handle)
| gl_createTexture
| gl_bindTexture (target : Z) (texture : handle)
| gl_pixelStorei (pname param : Z)
| gl_texImage2D (target level internalformat format type : Z) (image : handle)
| gl_texParameteri (target pname param : Z).

(** What a call answers: an object or [null], the truth of a status, a log
    or [null], or nothing. *)
Definition reply (c : gl_call) : Type :=
  match c with
  | gl_createShader _ | gl_createProgram | gl_createTexture => option handle
  | gl_getShaderParameter _ _ | gl_getProgramParameter _ _ => bool
  | gl_getShaderInfoLog _ | gl_getProgramInfoLog _ => option string
  | _ => unit
  end.

(** Code that calls the context: it returns, throws an [Error] with a
    message, or makes a call and goes on from the answer. *)
Inductive gl_prog (A : Type) : Type :=
| Return (a : A)
| Throw (message : string)
| Call (c : gl_call) (k : reply c → gl_prog A).
Arguments Return {A} a.
Arguments Throw {A} message.
Arguments Call {A} c k.

Fixpoint gl_bind {A B} (k : A → gl_prog B) (p : gl_prog A) : gl_prog B :=
  match p with
  | Return a => k a
  | Throw e => Throw e
  | Call c k' => Call c (λ r, gl_bind k (k' r))
  end.

Global Instance gl_prog_ret : MRet gl_prog := @Return.
Global Instance gl_prog_bind : MBind gl_prog := @gl_bind.

(** One call, returning its answer. *)
Definition call (c : gl_call) : gl_prog (reply c) := Call c Return.

(** The context answers each call; what it answers may depend on the
    calls made so far. *)
Record Host := {
  host_state : Type;
  host_answer : ∀ c : gl_call, host_state → reply c * host_state
}.

(** A run against a context: the calls made with their answers, in order,
    and the value returned or the message thrown. *)
Record event := Event { event_call : gl_call; event_reply : reply event_call }.

Fixpoint run {A} (h : Host) (p : gl_prog A) (s : host_state h) :
    list event * (string + A) :=
  match p with
  | Return a => ([], inr a)
  | Throw e => ([], inl e)
  | Call c k =>
      let '(r, s') := host_answer h c s in
      let '(tr, o) := run h (k r) s' in
      (Event c r :: tr, o)
  end.

Definition newline : string := String (Ascii.ascii_of_nat 10) "".

(** *** shader.ts *)

Definition compileShader (gl : GLenum) (type : Z) (source : string) : gl_prog handle :=
  shader ← call (gl_createShader type);
  match shader with
  | None => Throw ("셰이더 객체 생성 실패 (type=" +:+ pretty type +:+ ")")
  | Some shader =>
      _ ← call (gl_shaderSource shader source);
      _ ← call (gl_compileShader shader);
      status ← call (gl_getShaderParameter shader (COMPILE_STATUS gl));
      if negb status then
        log ← call (gl_getShaderInfoLog shader);
        let log := default "unknown error" log in
        _ ← call (gl_deleteShader shader);
        let label := if decide (type = VERTEX_SHADER gl) then "Vertex" else "Fragment" in
        Throw (label +:+ " 셰이더 컴파일 실패:" +:+ newline +:+ log)
      else
        Return shader
  end.

Definition createProgram (gl : GLenum) (vsSource fsSource : string) : gl_prog handle :=
  vs ← compileShader gl (VERTEX_SHADER gl) vsSource;
  fs ← compileShader gl (FRAGMENT_SHADER gl) fsSource;
  program ← call gl_createProgram;
  match program with
  | None => Throw "WebGL 프로그램 객체 생성 실패"
  | Some program =>
      _ ← call (gl_attachShader program vs);
      _ ← call (gl_attachShader program fs);
      _ ← call (gl_linkProgram program);
      status ← call (gl_getProgramParameter program (LINK_STATUS gl));
      if negb status then
        log ← call (gl_getProgramInfoLog program);
        let log := default "unknown error" log in
        _ ← call (gl_deleteProgram program);
        Throw ("프로그램 링크 실패:" +:+ newline +:+ log)
      else
        _ ← call (gl_deleteShader vs);
        _ ← call (gl_deleteShader fs);
        Return program
  end.

(** *** texture.ts *)

Record TextureOptions := {
  flipY : option bool;
  wrapS : option Z;
  wrapT : option Z;
  minFilter : option Z;
  magFilter : option Z
}.

(** [flipY ? 1 : 0] *)
Definition flip_param (flipY : bool) : Z := if flipY then 1 else 0.

Definition createTexture (gl : GLenum) (image : handle) (options : TextureOptions) :
    gl_prog handle :=
  tex ← call gl_createTexture;
  match tex with
  | None => Throw "WebGL 텍스처 객체 생성 실패"
  | Some tex =>
      _ ← call (gl_bindTexture (TEXTURE_2D gl) tex);
      _ ← call (gl_pixelStorei (UNPACK_FLIP_Y_WEBGL gl)
                  (flip_param (default false (flipY options))));
      _ ← call (gl_texImage2D (TEXTURE_2D gl) 0 (RGBA gl) (RGBA gl) (UNSIGNED_BYTE gl) image);
      _ ← call (gl_texParameteri (TEXTURE_2D gl) (TEXTURE_WRAP_S gl)
                  (default (CLAMP_TO_EDGE gl) (wrapS options)));
      _ ← call (gl_texParameteri (TEXTURE_2D gl) (TEXTURE_WRAP_T gl)
                  (default (CLAMP_TO_EDGE gl) (wrapT options)));
      _ ← call (gl_texParameteri (TEXTURE_2D gl) (TEXTURE_MIN_FILTER gl)
                  (default (LINEAR gl) (minFilter options)));
      _ ← call (gl_texParameteri (TEXTURE_2D gl) (TEXTURE_MAG_FILTER gl)
                  (default (LINEAR gl) (magFilter options)));
      Return tex
  end.

(** [if (value !== undefined) gl.texParameteri(gl.TEXTURE_2D, pname, value)] *)
Definition when_defined (gl : GLenum) (pname : Z) (value : option Z) : gl_prog unit :=
  match value with
  | Some value => call (gl_texParameteri (TEXTURE_2D gl) pname value)
  | None => Return ()
  end.

Definition applyTextureParams (gl : GLenum) (options : TextureOptions) : gl_prog unit :=
  _ ← when_defined gl (TEXTURE_WRAP_S gl) (wrapS options);
  _ ← when_defined gl (TEXTURE_WRAP_T gl) (wrapT options);
  _ ← when_defined gl (TEXTURE_MIN_FILTER gl) (minFilter options);
  when_defined gl (TEXTURE_MAG_FILTER gl) (magFilter options).

Definition reuploadWithFlip (gl : GLenum) (image : handle) (flipY : bool) : gl_prog unit :=
  _ ← call (gl_pixelStorei (UNPACK_FLIP_Y_WEBGL gl) (flip_param flipY));
  call (gl_texImage2D (TEXTURE_2D gl) 0 (RGBA gl) (RGBA gl) (UNSIGNED_BYTE gl) image).

(** *** What a run did *)

Definition shader_created (e : event) : option handle :=
  match e with
  | Event (gl_createShader _) r => r
  | _ => None
  end.
Definition shader_deleted (e : event) : option handle :=
  match e with
  | Event (gl_deleteShader shader) _ => Some shader
  | _ => None
  end.
Definition shader_status (status : bool) (e : event) : option handle :=
  match e with
  | Event (gl_getShaderParameter shader _) r =>
      if decide (r = status) then Some shader else None
  | _ => None
  end.
Definition program_created (e : event) : option handle :=
  match e with
  | Event gl_createProgram r => r
  | _ => None
  end.
Definition program_deleted (e : event) : option handle :=
  match e with
  | Event (gl_deleteProgram program) _ => Some program
  | _ => None
  end.


(** [options] with the defaults of [createTexture] filled in. *)
Definition with_defaults (gl : GLenum) (options : TextureOptions) : TextureOptions :=
  {| flipY := flipY options;
     wrapS := Some (default (CLAMP_TO_EDGE gl) (wrapS options));
     wrapT := Some (default (CLAMP_TO_EDGE gl) (wrapT options));
     minFilter := Some (default (LINEAR gl) (minFilter options));
     magFilter := Some (default (LINEAR gl) (magFilter options)) |}.

(** The call [texParameteri(TEXTURE_2D, pname, value)] for a value that is
    not [undefined], and no call for one that is. *)
Definition parameter_call (gl : GLenum) (pname : Z) (value : option Z) : list event :=
  match value with
  | Some value => [Event (gl_texParameteri (TEXTURE_2D gl) pname value) ()]
  | None => []
  end.

(** *** A context to run the code on *)

(** The values of the constants in WebGL 1 and 2. *)
Definition WebGL : GLenum := {|
  VERTEX_SHADER := 35633; FRAGMENT_SHADER := 35632;
  COMPILE_STATUS := 35713; LINK_STATUS := 35714;
  TEXTURE_2D := 3553; UNPACK_FLIP_Y_WEBGL := 37440; RGBA := 6408;
  UNSIGNED_BYTE := 5121;
  TEXTURE_WRAP_S := 10242; TEXTURE_WRAP_T := 10243;
  TEXTURE_MIN_FILTER := 10241; TEXTURE_MAG_FILTER := 10240;
  CLAMP_TO_EDGE := 33071; REPEAT := 10497; LINEAR := 9729; NEAREST := 9728
|}.

(** A context that numbers the objects it creates 1, 2, ..., compiles the
    shaders that [compiles] accepts and links a program when [links]. *)
Definition scripted (compiles : handle → bool) (links : bool) : Host := {|
  host_state := Z;
  host_answer c created :=
    match c return reply c * Z with
    | gl_createShader _ | gl_createProgram | gl_createTexture =>
        (Some (created + 1), created + 1)
    | gl_getShaderParameter shader _ => (compiles shader, created)
    | gl_getProgramParameter _ _ => (links, created)
    | gl_getShaderInfoLog _ | gl_getProgramInfoLog _ => (Some "ERROR: 0:1", created)
    | _ => ((), created)
    end
|}.

End webgl.

(** ** src/router.ts *)

Module router.
Section router.
(** A [RouteRenderer] is a function of the page; an element is known by
    its identity. *)
Context {RouteRenderer HTMLElement : Type}.

Record RouteEntry := { path : string; render : RouteRenderer }.

(** The three variables of the module. *)
Record Router := {
  routes : list RouteEntry;
  outlet : option HTMLElement;
  notFoundRenderer : option RouteRenderer
}.

Definition initial : Router :=
  {| routes := []; outlet := None; notFoundRenderer := None |}.

Definition registerRoutes (entries : list RouteEntry) (outletEl : HTMLElement)
    (notFound : option RouteRenderer) (_ : Router) : Router :=
  {| routes := entries; outlet := Some outletEl; notFoundRenderer := notFound |}.

(** What [navigate] does to the page, in order. *)
Inductive effect :=
| history_replaceState (url : string)
| set_innerHTML (el : HTMLElement) (html : string)
| call_renderer (r : RouteRenderer) (el : HTMLElement)
| set_textContent (el : HTMLElement) (text : string).

(** [location.hash || "#/"], then ["#"] read as ["#/"]. *)
Definition normalised (location_hash : string) : string :=
  let hash := if decide (location_hash = "") then "#/" else location_hash in
  if decide (hash = "#") then "#/" else hash.

Definition navigate (location_hash : string) (router : Router) : list effect :=
  match outlet router with
  | None => []
  | Some outlet =>
      let normalised := normalised location_hash in
      (if decide (location_hash = "" ∨ location_hash = "#")
       then [history_replaceState "#/"] else []) ++
      set_innerHTML outlet "" ::
      let matched := list_find (λ r, path r = normalised) (routes router) in
      match matched with
      | Some (_, matched) => [call_renderer (render matched) outlet]
      | None =>
          match notFoundRenderer router with
          | Some notFoundRenderer => [call_renderer notFoundRenderer outlet]
          | None => [set_textContent outlet "Page not found"]
          end
      end
  end.

End router.
Arguments RouteEntry : clear implicits.
Arguments Router : clear implicits.
Arguments effect : clear implicits.
End router.


(** ** src/main.ts: the routes that [bootstrap] registers *)

Module main.

(** A renderer by its name, the outlet as element 0. *)
Definition bootstrap : router.Router string Z :=
  router.registerRoutes
    [ {| router.path := "#/"; router.render := "renderHome" |};
      {| router.path := "#/triangle01"; router.render := "renderTriangle01" |};
      {| router.path := "#/transform01"; router.render := "renderTransform01" |};
      {| router.path := "#/projection01"; router.render := "renderProjection01" |} ]
    0 (Some "renderNotFound") router.initial.

End main.

Import mat4 sphere.

(** ** Vocabulary of the statements *)

Section mat4_vocabulary.
Context {num : Type} `{!Number num}.
Implicit Types (a b m : Mat4 num) (v : list num).

(** Element (row, col) of a column-major matrix. *)
Definition entry m (row col : Z) : num := f32_get m (col * 4 + row).

(** Element (row, col) of the plain product [a · b]: the sum over [k] of
    [a(row,k) * b(k,col)], added from left to right. *)
Definition product_entry a b (row col : Z) : num :=
  entry a row 0 ⊗ entry b 0 col ⊕ entry a row 1 ⊗ entry b 1 col ⊕
  entry a row 2 ⊗ entry b 2 col ⊕ entry a row 3 ⊗ entry b 3 col.

(** [m · v] for a column vector [v] of four components, as the vertex
    shaders of the pages apply a matrix: [gl_Position = u_mvp * vec4(...)]. *)
Definition transform m v : list num :=
  (λ row, entry m row 0 ⊗ f32_get v 0 ⊕ entry m row 1 ⊗ f32_get v 1 ⊕
          entry m row 2 ⊗ f32_get v 2 ⊕ entry m row 3 ⊗ f32_get v 3)
    <$> [0; 1; 2; 3].

(** An entry on which one and zero act exactly.  [zeros] are the values a
    product with zero may take: the zero of the reals, both signed zeros
    of floating point. *)
Record exact_entry (zeros : num → Prop) (x : num) : Prop := {
  entry_stored : fround x = x;
  entry_one_l : of_Z 1 ⊗ x = x;
  entry_one_r : x ⊗ of_Z 1 = x;
  entry_zero_l : zeros (of_Z 0 ⊗ x);
  entry_zero_r : zeros (x ⊗ of_Z 0);
  entry_add_zero : ∀ z, zeros z → x ⊕ z = x ∧ z ⊕ x = x
}.

Record exact_on (zeros : num → Prop) m : Prop := {
  one_stored : fround (of_Z 1) = of_Z 1;
  zeros_add : ∀ z z', zeros z → zeros z' → zeros (z ⊕ z');
  entries_exact : Forall (exact_entry zeros) m
}.

End mat4_vocabulary.

(** A matrix whose last row is (0, 0, 0, 1): it keeps the fourth component
    of every vector. *)
Definition affine {num : Type} `{!Number num} (m : Mat4 num) : Prop :=
  entry m 3 0 = of_Z 0 ∧ entry m 3 1 = of_Z 0 ∧
  entry m 3 2 = of_Z 0 ∧ entry m 3 3 = of_Z 1.

(** The zeros of floating point. *)
Definition float_zeros (z : float) : Prop := z = 0%float ∨ z = (-0)%float.

(** The host allocates the three arrays of a mesh of [stacks] by [slices]. *)
Definition mesh_fits {memory : Memory} (stacks slices : Z) : Prop :=
  can_allocate 4 ((stacks + 1) * (slices + 1) * 3) = true ∧
  can_allocate 4 ((stacks + 1) * (slices + 1) * 2) = true ∧
  can_allocate 2 (stacks * slices * 6) = true.

Section sphere_vocabulary.
Context {num : Type} `{!Number num, !MathObject num}.

(** Vertex [(stack, slice)] is the [vertex_index]-th vertex of the grid. *)
Definition vertex_index (slices stack slice : Z) : Z := stack * (slices + 1) + slice.

(** Cell [(stack, slice)] is the [cell_index]-th cell of the grid. *)
Definition cell_index (slices stack slice : Z) : Z := stack * slices + slice.

Definition polar_angle (stacks stack : Z) : num :=
  of_Z stack ⊘ of_Z stacks ⊗ Math_PI.

Definition azimuth (slices slice : Z) : num :=
  of_Z slice ⊘ of_Z slices ⊗ of_Z 2 ⊗ Math_PI.

Definition vertex_x (radius : num) (stacks slices stack slice : Z) : num :=
  radius ⊗ Math_sin (polar_angle stacks stack) ⊗ Math_cos (azimuth slices slice).

Definition vertex_y (radius : num) (stacks stack : Z) : num :=
  radius ⊗ Math_cos (polar_angle stacks stack).

Definition vertex_z (radius : num) (stacks slices stack slice : Z) : num :=
  radius ⊗ Math_sin (polar_angle stacks stack) ⊗ Math_sin (azimuth slices slice).

(** What the vertex loops have written once the first [k] vertices are done. *)
Definition vertices_filled (radius : num) (stacks slices k : Z)
    (st : list num * list num * Z) : Prop :=
  let '(positions, uvs, vi) := st in
  vi = k ∧
  length positions = Z.to_nat ((stacks + 1) * (slices + 1) * 3) ∧
  length uvs = Z.to_nat ((stacks + 1) * (slices + 1) * 2) ∧
  ∀ stack slice, 0 ≤ stack → 0 ≤ slice ≤ slices →
    vertex_index slices stack slice < k →
    ta_lookup positions (vertex_index slices stack slice * 3) =
      Some (fround (vertex_x radius stacks slices stack slice)) ∧
    ta_lookup positions (vertex_index slices stack slice * 3 + 1) =
      Some (fround (vertex_y radius stacks stack)) ∧
    ta_lookup positions (vertex_index slices stack slice * 3 + 2) =
      Some (fround (vertex_z radius stacks slices stack slice)) ∧
    ta_lookup uvs (vertex_index slices stack slice * 2) =
      Some (fround (of_Z slice ⊘ of_Z slices)) ∧
    ta_lookup uvs (vertex_index slices stack slice * 2 + 1) =
      Some (fround (of_Z stack ⊘ of_Z stacks)).

(** What the index loops have written once the first [k] cells are done. *)
Definition cells_filled (stacks slices k : Z) (st : list Z * Z) : Prop :=
  let '(indices, ii) := st in
  ii = k * 6 ∧
  length indices = Z.to_nat (stacks * slices * 6) ∧
  Forall (λ v, 0 ≤ v < (stacks + 1) * (slices + 1) ∧ v < 65536) indices ∧
  ∀ stack slice, 0 ≤ stack → 0 ≤ slice < slices →
    cell_index slices stack slice < k →
    let first := vertex_index slices stack slice in
    let second := first + (slices + 1) in
    let offset := cell_index slices stack slice * 6 in
    ta_lookup indices offset = Some (to_uint16 first) ∧
    ta_lookup indices (offset + 1) = Some (to_uint16 second) ∧
    ta_lookup indices (offset + 2) = Some (to_uint16 (first + 1)) ∧
    ta_lookup indices (offset + 3) = Some (to_uint16 (first + 1)) ∧
    ta_lookup indices (offset + 4) = Some (to_uint16 second) ∧
    ta_lookup indices (offset + 5) = Some (to_uint16 (second + 1)).

End sphere_vocabulary.

Section sphere_objects_vocabulary.
Context {num : Type}.
Implicit Types (σ : sphere_objects.State num) (mesh : sphere_objects.SphereMesh).

(** In the state [σ] the three arrays of [mesh] hold the elements
    [P], [U] and [X]. *)
Definition mesh_holds σ mesh (P U : list num) (X : list Z) : Prop :=
  sphere_objects.float32_arrays σ !! sphere_objects.positions mesh = Some P ∧
  sphere_objects.float32_arrays σ !! sphere_objects.uvs mesh = Some U ∧
  sphere_objects.uint16_arrays σ !! sphere_objects.indices mesh = Some X.

(** From [σ] to [σ'] the arrays of [mesh] are new, the only three arrays
    that [σ] did not have, and every array of [σ] is as it was. *)
Definition mesh_fresh σ σ' mesh : Prop :=
  sphere_objects.positions mesh = length (sphere_objects.float32_arrays σ) ∧
  sphere_objects.uvs mesh = S (length (sphere_objects.float32_arrays σ)) ∧
  sphere_objects.indices mesh = length (sphere_objects.uint16_arrays σ) ∧
  length (sphere_objects.float32_arrays σ') =
    S (S (length (sphere_objects.float32_arrays σ))) ∧
  length (sphere_objects.uint16_arrays σ') =
    S (length (sphere_objects.uint16_arrays σ)) ∧
  (∀ a, (a < length (sphere_objects.float32_arrays σ))%nat →
     sphere_objects.float32_arrays σ' !! a = sphere_objects.float32_arrays σ !! a) ∧
  (∀ a, (a < length (sphere_objects.uint16_arrays σ))%nat →
     sphere_objects.uint16_arrays σ' !! a = sphere_objects.uint16_arrays σ !! a).

End sphere_objects_vocabulary.

(** A list of the given length, as its elements. *)
Ltac list_elements l H :=
  repeat (destruct l as [|? l]; [discriminate H|]);
  destruct l; [clear H | discriminate H].

(** An equation between two lists of real expressions of one length. *)
Ltac real_list_eq :=
  lazymatch goal with
  | |- _ :: _ = _ :: _ => apply (f_equal2 cons); [ring | real_list_eq]
  | |- [] = [] => reflexivity
  end.

(** Every answer that a context can give to the calls of a run. *)
Ltac host_answers :=
  repeat (cbn;
    match goal with
    | |- context [webgl.host_answer ?h ?c ?s] =>
        let r := fresh "r" in
        destruct (webgl.host_answer h c s) as [r ?]; cbn in r; try destruct r
    end); cbn.

(** The same, for expressions with divisions by numbers known not to be 0. *)
Ltac real_list_field :=
  lazymatch goal with
  | |- _ :: _ = _ :: _ =>
      apply (f_equal2 cons); [field; try lra; auto | real_list_field]
  | |- [] = [] => reflexivity
  end.

(** * Properties *)

(** ** Typed arrays and loops *)

Section typed_array_facts.
Context {A : Type}.
Implicit Types (a : list A) (i j : Z) (v : A).

Lemma length_ta_set a i v : length (ta_set a i v) = length a.
Proof. unfold ta_set. case_decide; [apply length_insert | done]. Qed.

Lemma ta_lookup_set a i j v :
  ta_lookup (ta_set a i v) j =
    if decide (i = j ∧ 0 ≤ i < Z.of_nat (length a)) then Some v else ta_lookup a j.
Proof.
  unfold ta_lookup, ta_set.
  destruct (decide (0 ≤ j)), (decide (0 ≤ i)).
  - rewrite list_lookup_insert. repeat case_decide; try done; lia.
  - case_decide; [lia | done].
  - case_decide; [lia | done].
  - case_decide; [lia | done].
Qed.

Lemma ta_lookup_set_eq a i v :
  0 ≤ i < Z.of_nat (length a) → ta_lookup (ta_set a i v) i = Some v.
Proof. intros. rewrite ta_lookup_set. case_decide; [done | lia]. Qed.

Lemma ta_lookup_set_ne a i j v :
  i ≠ j → ta_lookup (ta_set a i v) j = ta_lookup a j.
Proof. intros. rewrite ta_lookup_set. case_decide; [lia | done]. Qed.

Lemma ta_lookup_replicate n v i :
  0 ≤ i < Z.of_nat n → ta_lookup (replicate n v) i = Some v.
Proof.
  intros. unfold ta_lookup. case_decide; [|lia].
  apply lookup_replicate_2. lia.
Qed.

Lemma Forall_ta_set (P : A → Prop) a i v :
  Forall P a → P v → Forall P (ta_set a i v).
Proof. intros. unfold ta_set. case_decide; [by apply Forall_insert | done]. Qed.
End typed_array_facts.

Section loop_facts.
Context {S : Type}.
Implicit Types (body : Z → S → S) (P : Z → S → Prop).

(** The invariant rule of a counting loop. *)
Lemma for_loop_inv P body n i s :
  P i s →
  (∀ j t, i ≤ j < i + Z.of_nat n → P j t → P (j + 1) (body j t)) →
  P (i + Z.of_nat n) (for_loop n i body s).
Proof.
  revert i s. induction n as [|n IH]; intros i s Hs Hstep; simpl for_loop.
  - by replace (i + Z.of_nat 0) with i by lia.
  - replace (i + Z.of_nat (Datatypes.S n)) with (i + 1 + Z.of_nat n) by lia.
    apply IH.
    + apply Hstep; [lia | done].
    + intros j t ? ?. apply Hstep; [lia | done].
Qed.

Lemma for_below_inv P body hi s :
  0 ≤ hi →
  P 0 s →
  (∀ j t, 0 ≤ j < hi → P j t → P (j + 1) (body j t)) →
  P hi (for_below hi body s).
Proof.
  intros Hhi Hs Hstep. unfold for_below.
  replace hi with (0 + Z.of_nat (Z.to_nat hi)) at 1 by lia.
  apply for_loop_inv; [done|]. intros j t ? ?. apply Hstep; [lia | done].
Qed.

Lemma for_upto_inv P body hi s :
  -1 ≤ hi →
  P 0 s →
  (∀ j t, 0 ≤ j ≤ hi → P j t → P (j + 1) (body j t)) →
  P (hi + 1) (for_upto hi body s).
Proof.
  intros Hhi Hs Hstep. unfold for_upto.
  replace (hi + 1) with (0 + Z.of_nat (Z.to_nat (hi + 1))) at 1 by lia.
  apply for_loop_inv; [done|]. intros j t ? ?. apply Hstep; [lia | done].
Qed.
End loop_facts.

(** ** The loops of the sphere mesh *)

Section sphere_facts.
Context {num : Type} `{!Number num, !MathObject num} {memory : Memory}.

(** Every host allocates the arrays of a mesh of at most 87381 vertices. *)
Lemma mesh_fits_small stacks slices :
  0 ≤ stacks → 0 ≤ slices → (stacks + 1) * (slices + 1) ≤ 87381 →
  mesh_fits stacks slices.
Proof.
  intros Hstacks Hslices Hsmall. unfold mesh_fits, can_allocate.
  rewrite !andb_true_iff, !bool_decide_eq_true.
  split_and!; first [nia | apply allocates_small; nia].
Qed.

(** No host allocates an array of negative length, or of more than
    [2^53 - 1] elements. *)
Lemma mesh_fits_bounds stacks slices :
  mesh_fits stacks slices →
  0 ≤ (stacks + 1) * (slices + 1) ∧ (stacks + 1) * (slices + 1) * 3 ≤ 9007199254740991 ∧
  0 ≤ stacks * slices ∧ stacks * slices * 6 ≤ 9007199254740991.
Proof.
  unfold mesh_fits, can_allocate.
  rewrite !andb_true_iff, !bool_decide_eq_true. lia.
Qed.

Lemma vertex_index_bound stacks slices stack slice :
  0 ≤ stack ≤ stacks → 0 ≤ slice ≤ slices →
  0 ≤ vertex_index slices stack slice < (stacks + 1) * (slices + 1).
Proof. unfold vertex_index. nia. Qed.

Lemma vertex_index_inj slices stack slice stack' slice' :
  0 ≤ slice ≤ slices → 0 ≤ slice' ≤ slices →
  vertex_index slices stack slice = vertex_index slices stack' slice' →
  stack = stack' ∧ slice = slice'.
Proof.
  unfold vertex_index. intros ? ? Heq.
  destruct (Z.lt_trichotomy stack stack') as [?|[->|?]]; [nia | lia | nia].
Qed.

Lemma cell_index_bound stacks slices stack slice :
  0 ≤ stack < stacks → 0 ≤ slice < slices →
  0 ≤ cell_index slices stack slice < stacks * slices.
Proof. unfold cell_index. nia. Qed.

Lemma cell_index_inj slices stack slice stack' slice' :
  0 ≤ slice < slices → 0 ≤ slice' < slices →
  cell_index slices stack slice = cell_index slices stack' slice' →
  stack = stack' ∧ slice = slice'.
Proof.
  unfold cell_index. intros ? ? Heq.
  destruct (Z.lt_trichotomy stack stack') as [?|[->|?]]; [nia | lia | nia].
Qed.

Lemma to_uint16_bound v : 0 ≤ v → 0 ≤ to_uint16 v ≤ v ∧ to_uint16 v < 65536.
Proof.
  intros. unfold to_uint16.
  pose proof (Z.mod_pos_bound v 65536 ltac:(lia)).
  pose proof (Z.mod_le v 65536 ltac:(lia) ltac:(lia)). lia.
Qed.

Lemma to_uint16_small v : 0 ≤ v < 65536 → to_uint16 v = v.
Proof. intros. unfold to_uint16. by apply Z.mod_small. Qed.

Lemma vertex_step_filled radius stacks slices stack slice st :
  0 ≤ stack ≤ stacks → 0 ≤ slice ≤ slices →
  vertices_filled radius stacks slices (vertex_index slices stack slice) st →
  vertices_filled radius stacks slices (vertex_index slices stack slice + 1)
    (vertex_step radius stacks slices stack
       (Math_sin (polar_angle stacks stack)) (Math_cos (polar_angle stacks stack))
       slice st).
Proof.
  intros Hstack Hslice. destruct st as [[positions uvs] vi].
  intros (-> & Hlp & Hlu & Hold). unfold vertex_step, f32_set.
  pose proof (vertex_index_bound stacks slices stack slice Hstack Hslice) as Hv.
  split_and!; [done | by rewrite !length_ta_set.. |].
  intros stack' slice' Hstack' Hslice' Hlt.
  destruct (decide (vertex_index slices stack' slice' = vertex_index slices stack slice))
    as [Heq|Hne].
  - destruct (vertex_index_inj _ _ _ _ _ Hslice' Hslice Heq) as [-> ->].
    fold (azimuth slices slice).
    fold (vertex_x radius stacks slices stack slice).
    fold (vertex_y radius stacks stack).
    fold (vertex_z radius stacks slices stack slice).
    rewrite !ta_lookup_set, !length_ta_set, Hlp, Hlu.
    set (v := vertex_index slices stack slice) in *.
    set (n := (stacks + 1) * (slices + 1)) in *.
    split_and!; repeat case_decide; first [done | lia].
  - destruct (Hold stack' slice') as (Hx & Hy & Hz & Hu & Hw); [done | done | lia |].
    rewrite !ta_lookup_set, !length_ta_set.
    set (v := vertex_index slices stack slice) in *.
    set (v' := vertex_index slices stack' slice') in *.
    split_and!; repeat case_decide; first [done | lia].
Qed.

Lemma stack_step_filled radius stacks slices stack st :
  0 ≤ stack ≤ stacks → 0 ≤ slices →
  vertices_filled radius stacks slices (vertex_index slices stack 0) st →
  vertices_filled radius stacks slices (vertex_index slices (stack + 1) 0)
    (stack_step radius stacks slices stack st).
Proof.
  intros Hstack Hslices Hst. unfold stack_step.
  fold (polar_angle stacks stack).
  replace (vertex_index slices (stack + 1) 0)
    with (vertex_index slices stack (slices + 1)) by (unfold vertex_index; lia).
  apply (for_upto_inv
    (λ slice, vertices_filled radius stacks slices (vertex_index slices stack slice)));
    [lia | done |].
  intros slice t Hslice Ht.
  replace (vertex_index slices stack (slice + 1))
    with (vertex_index slices stack slice + 1) by (unfold vertex_index; lia).
  by apply vertex_step_filled.
Qed.

Lemma vertex_loops_filled radius stacks slices :
  0 ≤ stacks → 0 ≤ slices →
  vertices_filled radius stacks slices ((stacks + 1) * (slices + 1))
    (for_upto stacks (stack_step radius stacks slices)
       (Float32Array_alloc (Z.to_nat ((stacks + 1) * (slices + 1) * 3)),
        Float32Array_alloc (Z.to_nat ((stacks + 1) * (slices + 1) * 2)), 0)).
Proof.
  intros Hstacks Hslices.
  replace ((stacks + 1) * (slices + 1))
    with (vertex_index slices (stacks + 1) 0) at 1 by (unfold vertex_index; lia).
  apply (for_upto_inv
    (λ stack, vertices_filled radius stacks slices (vertex_index slices stack 0)));
    [lia | |].
  - unfold vertices_filled, Float32Array_alloc. rewrite !length_replicate.
    split_and!; [done.. |].
    intros stack slice ? ?. unfold vertex_index. nia.
  - intros stack t ? ?. by apply stack_step_filled.
Qed.

Lemma cell_step_filled stacks slices stack slice st :
  0 ≤ stack < stacks → 0 ≤ slice < slices →
  cells_filled stacks slices (cell_index slices stack slice) st →
  cells_filled stacks slices (cell_index slices stack slice + 1)
    (cell_step slices stack slice st).
Proof.
  intros Hstack Hslice. destruct st as [indices ii].
  intros (-> & Hlen & Hall & Hold). unfold cell_step, u16_set.
  pose proof (cell_index_bound stacks slices stack slice Hstack Hslice) as Hc.
  fold (vertex_index slices stack slice).
  assert (0 ≤ vertex_index slices stack slice ∧
          vertex_index slices stack slice + slices + 1 + 1 < (stacks + 1) * (slices + 1))
    as [Hv0 Hv1] by (unfold vertex_index; nia).
  split_and!.
  - lia.
  - by rewrite !length_ta_set.
  - repeat apply Forall_ta_set; [done|..];
      match goal with |- context [to_uint16 ?v] =>
        pose proof (to_uint16_bound v ltac:(lia)); lia end.
  - intros stack' slice' Hstack' Hslice' Hlt.
    destruct (decide (cell_index slices stack' slice' = cell_index slices stack slice))
      as [Heq|Hne].
    + destruct (cell_index_inj _ _ _ _ _ Hslice' Hslice Heq) as [-> ->].
      cbv zeta.
      replace (vertex_index slices stack slice + slices + 1)
        with (vertex_index slices stack slice + (slices + 1)) by lia.
      rewrite !ta_lookup_set, !length_ta_set, Hlen.
      set (c := cell_index slices stack slice) in *.
      set (n := stacks * slices) in *.
      split_and!; repeat case_decide; first [done | lia].
    + destruct (Hold stack' slice') as (H0 & H1 & H2 & H3 & H4 & H5);
        [done | done | lia |].
      cbv zeta in *.
      rewrite !ta_lookup_set, !length_ta_set.
      set (c := cell_index slices stack slice) in *.
      set (c' := cell_index slices stack' slice') in *.
      split_and!; repeat case_decide; first [done | lia].
Qed.

Lemma index_loops_filled stacks slices :
  0 ≤ stacks → 0 ≤ slices →
  cells_filled stacks slices (stacks * slices)
    (for_below stacks (λ stack, for_below slices (cell_step slices stack))
       (Uint16Array_alloc (Z.to_nat (stacks * slices * 6)), 0)).
Proof.
  intros Hstacks Hslices.
  replace (stacks * slices) with (cell_index slices stacks 0) at 1
    by (unfold cell_index; lia).
  apply (for_below_inv
    (λ stack, cells_filled stacks slices (cell_index slices stack 0))); [done | |].
  - unfold cells_filled, Uint16Array_alloc. rewrite length_replicate.
    split_and!; [done.. | |].
    + apply Forall_replicate. lia.
    + intros stack slice ? ?. unfold cell_index. nia.
  - intros stack t Hstack Ht.
    replace (cell_index slices (stack + 1) 0) with (cell_index slices stack slices)
      by (unfold cell_index; lia).
    apply (for_below_inv
      (λ slice, cells_filled stacks slices (cell_index slices stack slice)));
      [done | done |].
    intros slice u Hslice Hu.
    replace (cell_index slices stack (slice + 1))
      with (cell_index slices stack slice + 1) by (unfold cell_index; lia).
    by apply cell_step_filled.
Qed.

(** One call, from any console, when the host allocates the arrays: the
    warning depends on the vertex count alone, and the arrays are those of
    the loops. *)
Lemma createSphereMesh_run radius stacks slices out :
  0 ≤ stacks → 0 ≤ slices → mesh_fits stacks slices →
  ∃ mesh,
    createSphereMesh radius stacks slices out =
      (out ++ (if decide ((stacks + 1) * (slices + 1) > 65535)
               then [oversize_warning ((stacks + 1) * (slices + 1))] else []),
       inr mesh) ∧
    vertexCount mesh = (stacks + 1) * (slices + 1) ∧
    indexCount mesh = stacks * slices * 6 ∧
    vertices_filled radius stacks slices ((stacks + 1) * (slices + 1))
      (positions mesh, uvs mesh, (stacks + 1) * (slices + 1)) ∧
    cells_filled stacks slices (stacks * slices)
      (indices mesh, stacks * slices * 6).
Proof.
  intros Hstacks Hslices (Hp & Hu & Hi').
  pose proof (vertex_loops_filled radius stacks slices Hstacks Hslices) as Hv.
  pose proof (index_loops_filled stacks slices Hstacks Hslices) as Hi.
  unfold createSphereMesh, Float32Array_new, Uint16Array_new.
  rewrite Hp, Hu, Hi'.
  repeat case_decide; try nia.
  all: unfold mbind, js_bind, mret, js_ret, console_warn.
  all: destruct (for_upto _ _ _) as [[p u] vi].
  all: destruct (for_below _ _ _) as [ix ii].
  all: eexists; split; [by rewrite ?app_nil_r|].
  all: destruct Hv as (-> & ?), Hi as (-> & ?); by split_and!.
Qed.

(** The mesh of a call does not depend on the console it starts from. *)
Lemma createSphereMesh_console radius stacks slices out out' :
  (createSphereMesh radius stacks slices out).2 =
  (createSphereMesh radius stacks slices out').2.
Proof.
  unfold createSphereMesh, Float32Array_new, Uint16Array_new.
  repeat case_decide.
  all: repeat match goal with
         | |- context [can_allocate ?b ?len] => destruct (can_allocate b len)
         end.
  all: unfold mbind, js_bind, mret, js_ret, console_warn, throw.
  all: try done.
  all: destruct (for_upto _ _ _) as [[p u] vi]; try done.
  all: by destruct (for_below _ _ _) as [ix ii].
Qed.

(** A vertex count below zero makes the first allocation fail. *)
Lemma createSphereMesh_negative radius out :
  createSphereMesh radius (-2) 0 out = (out, inl RangeError).
Proof. done. Qed.

(** The three coordinates of grid vertex [(stack, slice)]. *)
Lemma createSphereMesh_position (radius : num) stacks slices out stack slice :
  0 ≤ stacks → 0 ≤ slices → mesh_fits stacks slices →
  0 ≤ stack ≤ stacks → 0 ≤ slice ≤ slices →
  ∃ mesh,
    (createSphereMesh radius stacks slices out).2 = inr mesh ∧
    ta_lookup (positions mesh) (3 * vertex_index slices stack slice) =
      Some (fround (vertex_x radius stacks slices stack slice)) ∧
    ta_lookup (positions mesh) (3 * vertex_index slices stack slice + 1) =
      Some (fround (vertex_y radius stacks stack)) ∧
    ta_lookup (positions mesh) (3 * vertex_index slices stack slice + 2) =
      Some (fround (vertex_z radius stacks slices stack slice)).
Proof.
  intros Hstacks Hslices Hfits Hstack Hslice.
  destruct (createSphereMesh_run radius stacks slices out) as
    (mesh & Hrun & _ & _ & (_ & _ & _ & Hverts) & _); [lia | lia | done |].
  pose proof (vertex_index_bound stacks slices stack slice Hstack Hslice).
  destruct (Hverts stack slice) as (Hx & Hy & Hz & _); [lia | done | lia |].
  exists mesh. rewrite Hrun.
  replace (3 * vertex_index slices stack slice)
    with (vertex_index slices stack slice * 3) by lia.
  done.
Qed.

(** Every vertex number below the vertex count is a grid vertex. *)
Lemma vertex_index_surj stacks slices vi :
  0 ≤ slices → 0 ≤ vi < (stacks + 1) * (slices + 1) →
  ∃ stack slice,
    0 ≤ stack ≤ stacks ∧ 0 ≤ slice ≤ slices ∧ vertex_index slices stack slice = vi.
Proof.
  intros Hslices Hvi.
  exists (vi / (slices + 1)), (vi mod (slices + 1)).
  pose proof (Z.mod_pos_bound vi (slices + 1) ltac:(lia)).
  pose proof (Z.div_mod vi (slices + 1) ltac:(lia)).
  assert (0 ≤ vi / (slices + 1)) by (apply Z.div_pos; lia).
  assert (vi / (slices + 1) < stacks + 1)
    by (apply Z.div_lt_upper_bound; lia).
  unfold vertex_index. split_and!; lia.
Qed.

(** ** The sphere mesh: shape, indices, uvs, totality, determinism *)

(** C1, as the code has it.  For integers [stacks >= 1] and
    [slices >= 1] whose three arrays the host allocates, and any radius,
    [createSphereMesh] returns a mesh with
    [vertexCount = (stacks+1)*(slices+1)], [3*vertexCount] positions,
    [2*vertexCount] uvs, [indexCount = stacks*slices*6] indices, and every
    index below [vertexCount].  With radius 1, 2 stacks and 4 slices this
    makes 15 vertices and 48 indices ([createSphereMesh_shape_1_2_4]).
    Arrays that cannot be allocated end the call with a [RangeError]
    ([createSphereMesh_shape_too_large]). *)
Theorem createSphereMesh_shape radius stacks slices out :
  1 ≤ stacks → 1 ≤ slices → mesh_fits stacks slices →
  ∃ mesh,
    (createSphereMesh radius stacks slices out).2 = inr mesh ∧
    vertexCount mesh = (stacks + 1) * (slices + 1) ∧
    Z.of_nat (length (positions mesh)) = 3 * vertexCount mesh ∧
    Z.of_nat (length (uvs mesh)) = 2 * vertexCount mesh ∧
    Z.of_nat (length (indices mesh)) = indexCount mesh ∧
    indexCount mesh = stacks * slices * 6 ∧
    Forall (λ i, i < vertexCount mesh) (indices mesh).
Proof.
  intros Hstacks Hslices Hfits.
  destruct (createSphereMesh_run radius stacks slices out) as
    (mesh & Hrun & Hvc & Hic & (_ & Hlp & Hlu & _) & (_ & Hli & Hall & _));
    [lia | lia | done |].
  exists mesh. rewrite Hrun, Hvc, Hic, Hlp, Hlu, Hli.
  split_and!; [done | done | nia.. | done |].
  eapply Forall_impl; [exact Hall|]. simpl. lia.
Qed.

(** C4, as the code has it.  For [stacks >= 1], [slices >= 1] whose
    arrays the host allocates, and every
    cell [(stack, slice)] of the grid, the six entries of [indices] from
    offset [6*(stack*slices + slice)] are [first], [second], [first+1],
    [first+1], [second], [second+1] reduced modulo 65536, where
    [first = stack*(slices+1) + slice] and [second = first + (slices+1)];
    they are these six values themselves whenever
    [(stacks+1)*(slices+1) <= 65536]. *)
Theorem createSphereMesh_cell radius stacks slices out stack slice :
  1 ≤ stacks → 1 ≤ slices → mesh_fits stacks slices →
  0 ≤ stack < stacks → 0 ≤ slice < slices →
  let first := stack * (slices + 1) + slice in
  let second := first + (slices + 1) in
  let offset := 6 * (stack * slices + slice) in
  ∃ mesh,
    (createSphereMesh radius stacks slices out).2 = inr mesh ∧
    ta_lookup (indices mesh) <$>
        [offset; offset + 1; offset + 2; offset + 3; offset + 4; offset + 5] =
      Some ∘ to_uint16 <$>
        [first; second; first + 1; first + 1; second; second + 1] ∧
    ((stacks + 1) * (slices + 1) ≤ 65536 →
     ta_lookup (indices mesh) <$>
         [offset; offset + 1; offset + 2; offset + 3; offset + 4; offset + 5] =
       Some <$> [first; second; first + 1; first + 1; second; second + 1]).
Proof.
  intros Hstacks Hslices Hfits Hstack Hslice first second offset.
  destruct (createSphereMesh_run radius stacks slices out) as
    (mesh & Hrun & _ & _ & _ & (_ & _ & _ & Hcells)); [lia | lia | done |].
  pose proof (cell_index_bound stacks slices stack slice Hstack Hslice).
  destruct (Hcells stack slice) as (H0 & H1 & H2 & H3 & H4 & H5); [lia | done | lia |].
  cbv zeta in *. unfold vertex_index, cell_index in *.
  assert (0 ≤ first ∧ second + 1 < (stacks + 1) * (slices + 1)) as [? ?]
    by (subst first second; nia).
  subst first second offset.
  replace (6 * (stack * slices + slice)) with ((stack * slices + slice) * 6) by lia.
  exists mesh. rewrite Hrun. simpl. rewrite H0, H1, H2, H3, H4, H5.
  split_and!; [done | done |].
  intros Hsmall. by rewrite !to_uint16_small by lia.
Qed.

(** C5. For [stacks >= 1], [slices >= 1] whose arrays the host
    allocates, and every grid vertex
    [(stack, slice)], the uv pair stored at
    [2*(stack*(slices+1)+slice)] and the next index of [uvs] is
    [u = slice/slices] and [v = stack/stacks], as a [Float32Array]
    stores them. *)
Theorem createSphereMesh_uv radius stacks slices out stack slice :
  1 ≤ stacks → 1 ≤ slices → mesh_fits stacks slices →
  0 ≤ stack ≤ stacks → 0 ≤ slice ≤ slices →
  ∃ mesh,
    (createSphereMesh radius stacks slices out).2 = inr mesh ∧
    ta_lookup (uvs mesh) (2 * (stack * (slices + 1) + slice)) =
      Some (fround (of_Z slice ⊘ of_Z slices)) ∧
    ta_lookup (uvs mesh) (2 * (stack * (slices + 1) + slice) + 1) =
      Some (fround (of_Z stack ⊘ of_Z stacks)).
Proof.
  intros Hstacks Hslices Hfits Hstack Hslice.
  destruct (createSphereMesh_run radius stacks slices out) as
    (mesh & Hrun & _ & _ & (_ & _ & _ & Hverts) & _); [lia | lia | done |].
  pose proof (vertex_index_bound stacks slices stack slice Hstack Hslice).
  destruct (Hverts stack slice) as (_ & _ & _ & Hu & Hv); [lia | done | lia |].
  exists mesh. rewrite Hrun. unfold vertex_index in *.
  replace (2 * (stack * (slices + 1) + slice))
    with ((stack * (slices + 1) + slice) * 2) by lia.
  done.
Qed.

(** C9, as the code has it.  For [stacks >= 1] and [slices >= 1] whose
    three arrays the host allocates, the call raises nothing.  It
    logs one warning exactly when [(stacks+1)*(slices+1) > 65535] and
    nothing otherwise, and in both cases returns the arrays the same
    rules dictate: the lengths, the vertex data ([vertices_filled]) and
    the index data ([cells_filled]), each index kept in 16 bits.  When the
    host does not allocate the arrays the call raises a [RangeError], after
    the warning ([createSphereMesh_total_range_error]). *)
Theorem createSphereMesh_total radius stacks slices out :
  1 ≤ stacks → 1 ≤ slices → mesh_fits stacks slices →
  let n := (stacks + 1) * (slices + 1) in
  ∃ mesh,
    createSphereMesh radius stacks slices out =
      (out ++ (if decide (n > 65535) then [oversize_warning n] else []),
       inr mesh) ∧
    vertexCount mesh = n ∧
    indexCount mesh = stacks * slices * 6 ∧
    Z.of_nat (length (positions mesh)) = 3 * n ∧
    Z.of_nat (length (uvs mesh)) = 2 * n ∧
    Z.of_nat (length (indices mesh)) = stacks * slices * 6 ∧
    Forall (λ i, 0 ≤ i < 65536) (indices mesh) ∧
    vertices_filled radius stacks slices n (positions mesh, uvs mesh, n) ∧
    cells_filled stacks slices (stacks * slices)
      (indices mesh, stacks * slices * 6).
Proof.
  intros Hstacks Hslices Hfits n.
  destruct (createSphereMesh_run radius stacks slices out) as
    (mesh & Hrun & Hvc & Hic & Hverts & Hcells); [lia | lia | done |].
  exists mesh. fold n in Hrun, Hvc, Hverts.
  pose proof Hverts as (_ & Hlp & Hlu & _).
  pose proof Hcells as (_ & Hli & Hall & _).
  split_and!; [done | done | done | subst n; nia.. | | done | done].
  eapply Forall_impl; [exact Hall|]. simpl. lia.
Qed.

End sphere_facts.

(** ** The sphere mesh with arrays as objects: two calls *)

Section sphere_objects_facts.
Context {num : Type} `{!Number num, !MathObject num} {memory : Memory}.
Implicit Types (radius : num) (stacks slices : Z) (σ : sphere_objects.State num).
Implicit Types (F : list (list num)) (I : list (list Z)) (P U : list num) (X : list Z).

(** Two loops whose bodies keep a relation between their states. *)
Lemma for_loop_sim {S T : Type} (R : S → T → Prop)
    (f : Z → S → S) (g : Z → T → T) n i s t :
  R s t → (∀ j s t, R s t → R (f j s) (g j t)) →
  R (for_loop n i f s) (for_loop n i g t).
Proof.
  intros Hst Hstep. revert i s t Hst.
  induction n as [|n IH]; intros i s t Hst; simpl for_loop; [done|].
  apply IH. by apply Hstep.
Qed.

(** A store to the positions and to the uvs, the last two arrays of the
    store. *)
Lemma f32_store_positions c F I P U i v :
  sphere_objects.f32_store (length F) i v
    (sphere_objects.Build_State c (F ++ [P; U]) I) =
  sphere_objects.Build_State c (F ++ [f32_set P i v; U]) I.
Proof.
  unfold sphere_objects.f32_store. cbn. f_equal.
  rewrite <- (Nat.add_0_r (length F)). by rewrite alter_app_r.
Qed.

Lemma f32_store_uvs c F I P U i v :
  sphere_objects.f32_store (S (length F)) i v
    (sphere_objects.Build_State c (F ++ [P; U]) I) =
  sphere_objects.Build_State c (F ++ [P; f32_set U i v]) I.
Proof.
  unfold sphere_objects.f32_store. cbn. f_equal.
  rewrite <- (Nat.add_1_r (length F)). by rewrite alter_app_r.
Qed.

Lemma u16_store_indices c F I X i v :
  sphere_objects.u16_store (length I) i v
    (sphere_objects.Build_State c F (I ++ [X])) =
  sphere_objects.Build_State c F (I ++ [u16_set X i v]).
Proof.
  unfold sphere_objects.u16_store. cbn. f_equal.
  rewrite <- (Nat.add_0_r (length I)). by rewrite alter_app_r.
Qed.

(** The vertex loops on the store do to the two arrays what the loops of
    [sphere] do to the two lists, and nothing else. *)
Lemma vertex_loops_objects radius stacks slices c F I P U vi :
  for_upto stacks
    (sphere_objects.stack_step radius stacks slices (length F) (S (length F)))
    (sphere_objects.Build_State c (F ++ [P; U]) I, vi) =
  let '(P', U', vi') :=
    for_upto stacks (sphere.stack_step radius stacks slices) (P, U, vi) in
  (sphere_objects.Build_State c (F ++ [P'; U']) I, vi').
Proof.
  set (R := λ (s : sphere_objects.State num * Z) (t : list num * list num * Z),
         s = (sphere_objects.Build_State c (F ++ [t.1.1; t.1.2]) I, t.2)).
  assert (R (for_upto stacks
               (sphere_objects.stack_step radius stacks slices (length F) (S (length F)))
               (sphere_objects.Build_State c (F ++ [P; U]) I, vi))
            (for_upto stacks (sphere.stack_step radius stacks slices) (P, U, vi)))
    as Hsim.
  { unfold for_upto. apply for_loop_sim; [done|].
    intros stack s [[P1 U1] vi1] ->. unfold R. cbn [fst snd].
    unfold sphere_objects.stack_step, sphere.stack_step, for_upto.
    apply (for_loop_sim R); [done|].
    intros slice s [[P2 U2] vi2] ->. unfold R. cbn [fst snd].
    unfold sphere_objects.vertex_step, sphere.vertex_step.
    by rewrite !f32_store_positions, !f32_store_uvs. }
  unfold R in Hsim. rewrite Hsim. clear.
  generalize (for_upto stacks (sphere.stack_step radius stacks slices) (P, U, vi)).
  by intros [[P' U'] vi'].
Qed.

Lemma index_loops_objects stacks slices c F I X ii :
  for_below stacks (λ stack,
    for_below slices (sphere_objects.cell_step slices (length I) stack))
    (sphere_objects.Build_State c F (I ++ [X]), ii) =
  let '(X', ii') :=
    for_below stacks (λ stack,
      for_below slices (sphere.cell_step slices stack)) (X, ii) in
  (sphere_objects.Build_State c F (I ++ [X']), ii').
Proof.
  set (R := λ (s : sphere_objects.State num * Z) (t : list Z * Z),
         s = (sphere_objects.Build_State c F (I ++ [t.1]), t.2)).
  assert (R (for_below stacks (λ stack,
               for_below slices (sphere_objects.cell_step slices (length I) stack))
               (sphere_objects.Build_State c F (I ++ [X]), ii))
            (for_below stacks (λ stack,
               for_below slices (sphere.cell_step slices stack)) (X, ii)))
    as Hsim.
  { unfold for_below. apply for_loop_sim; [done|].
    intros stack s [X1 ii1] ->. unfold R. cbn [fst snd].
    apply (for_loop_sim R); [done|].
    intros slice s [X2 ii2] ->. unfold R. cbn [fst snd].
    unfold sphere_objects.cell_step, sphere.cell_step.
    by rewrite !u16_store_indices. }
  unfold R in Hsim. rewrite Hsim. clear.
  generalize (for_below stacks (λ stack,
    for_below slices (sphere.cell_step slices stack)) (X, ii)).
  by intros [X' ii'].
Qed.

(** When the host allocates the arrays, the call of [sphere] returns. *)
Lemma createSphereMesh_returns radius stacks slices out :
  mesh_fits stacks slices →
  ∃ mesh,
    sphere.createSphereMesh radius stacks slices out =
      (out ++ (if decide ((stacks + 1) * (slices + 1) > 65535)
               then [oversize_warning ((stacks + 1) * (slices + 1))] else []),
       inr mesh) ∧
    vertexCount mesh = (stacks + 1) * (slices + 1) ∧
    indexCount mesh = stacks * slices * 6.
Proof.
  intros (Hp & Hu & Hi).
  unfold sphere.createSphereMesh, Float32Array_new, Uint16Array_new.
  rewrite Hp, Hu, Hi.
  repeat case_decide.
  all: unfold mbind, js_bind, mret, js_ret, console_warn.
  all: destruct (for_upto _ _ _) as [[p u] vi].
  all: destruct (for_below _ _ _) as [ix ii].
  all: eexists; split; [by rewrite ?app_nil_r|done].
Qed.

(** The call on the store allocates three arrays at the end of the store,
    fills them with the elements that the call of [sphere] returns, logs
    what that call logs, and changes no other array. *)
Lemma createSphereMesh_objects radius stacks slices σ out mesh :
  sphere.createSphereMesh radius stacks slices (sphere_objects.console σ) =
    (out, inr mesh) →
  sphere_objects.createSphereMesh radius stacks slices σ =
    (sphere_objects.Build_State out
       (sphere_objects.float32_arrays σ ++ [positions mesh; uvs mesh])
       (sphere_objects.uint16_arrays σ ++ [indices mesh]),
     inr (sphere_objects.Build_SphereMesh
            (length (sphere_objects.float32_arrays σ))
            (S (length (sphere_objects.float32_arrays σ)))
            (length (sphere_objects.uint16_arrays σ))
            (vertexCount mesh) (indexCount mesh))).
Proof.
  destruct σ as [c F I]. cbn [sphere_objects.console sphere_objects.float32_arrays
    sphere_objects.uint16_arrays].
  unfold sphere.createSphereMesh, sphere_objects.createSphereMesh,
    Float32Array_new, Uint16Array_new,
    sphere_objects.Float32Array_new, sphere_objects.Uint16Array_new.
  unfold mbind, js_bind, sphere_objects.jso_bind, mret, js_ret, sphere_objects.jso_ret,
    console_warn, sphere_objects.console_warn, throw, sphere_objects.loop.
  repeat case_decide.
  all: repeat match goal with
         | |- context [can_allocate ?b ?len] => destruct (can_allocate b len)
         end.
  all: cbn [sphere_objects.console sphere_objects.float32_arrays
    sphere_objects.uint16_arrays]; try done.
  all: rewrite <- ?(assoc_L (++) F); cbn [app].
  all: try rewrite length_app, Nat.add_1_r.
  all: rewrite ?vertex_loops_objects.
  all: destruct (for_upto _ _ _) as [[p u] vi]; try done.
  all: rewrite index_loops_objects.
  all: destruct (for_below _ _ _) as [ix ii].
  all: by intros [= <- <-].
Qed.

(** C10.  Two calls with the same radius, stacks and slices, from any two
    states, when the host allocates the arrays: both return, the two
    meshes have equal counts, and their positions, uvs and indices hold the
    same elements.  The arrays of each call are new and the call leaves
    every other array as it was: when the second call starts where the
    first ended, it returns other arrays than the first and does not touch
    the first's. *)
Theorem createSphereMesh_deterministic radius stacks slices σ σ' :
  mesh_fits stacks slices →
  ∃ mesh1 σ1 mesh2 σ2 P U X,
    sphere_objects.createSphereMesh radius stacks slices σ = (σ1, inr mesh1) ∧
    sphere_objects.createSphereMesh radius stacks slices σ' = (σ2, inr mesh2) ∧
    mesh_holds σ1 mesh1 P U X ∧ mesh_holds σ2 mesh2 P U X ∧
    sphere_objects.vertexCount mesh1 = sphere_objects.vertexCount mesh2 ∧
    sphere_objects.indexCount mesh1 = sphere_objects.indexCount mesh2 ∧
    mesh_fresh σ σ1 mesh1 ∧ mesh_fresh σ' σ2 mesh2 ∧
    (σ' = σ1 →
     sphere_objects.positions mesh1 ≠ sphere_objects.positions mesh2 ∧
     sphere_objects.uvs mesh1 ≠ sphere_objects.uvs mesh2 ∧
     sphere_objects.indices mesh1 ≠ sphere_objects.indices mesh2 ∧
     mesh_holds σ2 mesh1 P U X).
Proof.
  intros Hfits.
  destruct (createSphereMesh_returns radius stacks slices (sphere_objects.console σ) Hfits)
    as (mesh & Hrun & Hvc & Hic).
  destruct (createSphereMesh_returns radius stacks slices (sphere_objects.console σ') Hfits)
    as (mesh' & Hrun' & Hvc' & Hic').
  assert (mesh' = mesh) as ->.
  { pose proof (createSphereMesh_console radius stacks slices
      (sphere_objects.console σ) (sphere_objects.console σ')) as Heq.
    rewrite Hrun, Hrun' in Heq. by injection Heq. }
  apply createSphereMesh_objects in Hrun, Hrun'.
  assert (∀ (A : Type) (l : list A) (x y : A),
            (l ++ [x; y]) !! length l = Some x ∧ (l ++ [x; y]) !! S (length l) = Some y)
    as Hlast2.
  { intros A l x y. split.
    - by apply list_lookup_middle.
    - rewrite (assoc_L (++) l [x] [y] : l ++ [x; y] = (l ++ [x]) ++ [y]).
      apply list_lookup_middle. by rewrite length_app, Nat.add_1_r. }
  assert (∀ (A : Type) (l : list A) (x : A), (l ++ [x]) !! length l = Some x) as Hlast1.
  { intros A l x. by apply list_lookup_middle. }
  do 2 eexists. eexists _, _, (positions mesh), (uvs mesh), (indices mesh).
  split; [exact Hrun|]. split; [exact Hrun'|].
  unfold mesh_holds, mesh_fresh.
  cbn [sphere_objects.float32_arrays sphere_objects.uint16_arrays
       sphere_objects.positions sphere_objects.uvs sphere_objects.indices
       sphere_objects.vertexCount sphere_objects.indexCount].
  split_and!; try done; try apply Hlast2; try apply Hlast1.
  all: try (rewrite length_app; cbn [length]; lia).
  1-4: by intros a Ha; apply lookup_app_l.
  intros ->.
  cbn [sphere_objects.float32_arrays sphere_objects.uint16_arrays].
  rewrite !length_app. cbn [length].
  split_and!; try lia.
  - rewrite lookup_app_l by (rewrite length_app; cbn; lia). apply Hlast2.
  - rewrite lookup_app_l by (rewrite length_app; cbn; lia). apply Hlast2.
  - rewrite lookup_app_l by (rewrite length_app; cbn; lia). apply Hlast1.
Qed.

End sphere_objects_facts.

(** ** The matrices *)

Section mat4_facts.
Context {num : Type} `{!Number num}.
Implicit Types (a b m : Mat4 num) (v : list num).

Lemma identity_unfold :
  identity = [fround (of_Z 1); of_Z 0; of_Z 0; of_Z 0;
              of_Z 0; fround (of_Z 1); of_Z 0; of_Z 0;
              of_Z 0; of_Z 0; fround (of_Z 1); of_Z 0;
              of_Z 0; of_Z 0; of_Z 0; fround (of_Z 1)].
Proof. reflexivity. Qed.

(** The two loops of [multiply], column by column and row by row. *)
Lemma multiply_unfold a b :
  multiply a b =
    [0; 1; 2; 3] ≫= λ col, [0; 1; 2; 3] ≫= λ row,
      [fround (product_entry a b row col)].
Proof. reflexivity. Qed.

Lemma multiply_length a b : length (multiply a b) = 16%nat.
Proof. by rewrite multiply_unfold. Qed.

Lemma multiply_lookup a b row col :
  0 ≤ row < 4 → 0 ≤ col < 4 →
  ta_lookup (multiply a b) (col * 4 + row) = Some (fround (product_entry a b row col)).
Proof.
  intros Hrow Hcol. rewrite multiply_unfold.
  assert (row = 0 ∨ row = 1 ∨ row = 2 ∨ row = 3) as Hr by lia.
  assert (col = 0 ∨ col = 1 ∨ col = 2 ∨ col = 3) as Hc by lia.
  destruct_or!; subst; reflexivity.
Qed.

Section identity_laws.
Context (zeros : num → Prop).
Hypothesis zeros_add : ∀ z z', zeros z → zeros z' → zeros (z ⊕ z').
Implicit Types (x y z : num).

Lemma add_zero_r x z : exact_entry zeros x → zeros z → x ⊕ z = x.
Proof. intros Hx Hz. apply (entry_add_zero _ _ Hx z Hz). Qed.

Lemma add_zero_l x z : exact_entry zeros x → zeros z → z ⊕ x = x.
Proof. intros Hx Hz. apply (entry_add_zero _ _ Hx z Hz). Qed.

(** A column of [m] against the rows of the identity. *)
Lemma identity_column c0 c1 c2 c3 :
  exact_entry zeros c0 → exact_entry zeros c1 →
  exact_entry zeros c2 → exact_entry zeros c3 →
  fround (of_Z 1 ⊗ c0 ⊕ of_Z 0 ⊗ c1 ⊕ of_Z 0 ⊗ c2 ⊕ of_Z 0 ⊗ c3) = c0 ∧
  fround (of_Z 0 ⊗ c0 ⊕ of_Z 1 ⊗ c1 ⊕ of_Z 0 ⊗ c2 ⊕ of_Z 0 ⊗ c3) = c1 ∧
  fround (of_Z 0 ⊗ c0 ⊕ of_Z 0 ⊗ c1 ⊕ of_Z 1 ⊗ c2 ⊕ of_Z 0 ⊗ c3) = c2 ∧
  fround (of_Z 0 ⊗ c0 ⊕ of_Z 0 ⊗ c1 ⊕ of_Z 0 ⊗ c2 ⊕ of_Z 1 ⊗ c3) = c3.
Proof.
  intros H0 H1 H2 H3.
  pose proof (entry_zero_l _ _ H0) as Z0. pose proof (entry_zero_l _ _ H1) as Z1.
  pose proof (entry_zero_l _ _ H2) as Z2. pose proof (entry_zero_l _ _ H3) as Z3.
  rewrite (entry_one_l _ _ H0), (entry_one_l _ _ H1),
    (entry_one_l _ _ H2), (entry_one_l _ _ H3).
  split_and!.
  - rewrite !(add_zero_r c0) by done. apply (entry_stored _ _ H0).
  - rewrite (add_zero_l c1) by done. rewrite !(add_zero_r c1) by done.
    apply (entry_stored _ _ H1).
  - rewrite (add_zero_l c2) by auto. rewrite !(add_zero_r c2) by done.
    apply (entry_stored _ _ H2).
  - rewrite (add_zero_l c3) by auto. apply (entry_stored _ _ H3).
Qed.

(** A row of [m] against the columns of the identity. *)
Lemma identity_row r0 r1 r2 r3 :
  exact_entry zeros r0 → exact_entry zeros r1 →
  exact_entry zeros r2 → exact_entry zeros r3 →
  fround (r0 ⊗ of_Z 1 ⊕ r1 ⊗ of_Z 0 ⊕ r2 ⊗ of_Z 0 ⊕ r3 ⊗ of_Z 0) = r0 ∧
  fround (r0 ⊗ of_Z 0 ⊕ r1 ⊗ of_Z 1 ⊕ r2 ⊗ of_Z 0 ⊕ r3 ⊗ of_Z 0) = r1 ∧
  fround (r0 ⊗ of_Z 0 ⊕ r1 ⊗ of_Z 0 ⊕ r2 ⊗ of_Z 1 ⊕ r3 ⊗ of_Z 0) = r2 ∧
  fround (r0 ⊗ of_Z 0 ⊕ r1 ⊗ of_Z 0 ⊕ r2 ⊗ of_Z 0 ⊕ r3 ⊗ of_Z 1) = r3.
Proof.
  intros H0 H1 H2 H3.
  pose proof (entry_zero_r _ _ H0) as Z0. pose proof (entry_zero_r _ _ H1) as Z1.
  pose proof (entry_zero_r _ _ H2) as Z2. pose proof (entry_zero_r _ _ H3) as Z3.
  rewrite (entry_one_r _ _ H0), (entry_one_r _ _ H1),
    (entry_one_r _ _ H2), (entry_one_r _ _ H3).
  split_and!.
  - rewrite !(add_zero_r r0) by done. apply (entry_stored _ _ H0).
  - rewrite (add_zero_l r1) by done. rewrite !(add_zero_r r1) by done.
    apply (entry_stored _ _ H1).
  - rewrite (add_zero_l r2) by auto. rewrite !(add_zero_r r2) by done.
    apply (entry_stored _ _ H2).
  - rewrite (add_zero_l r3) by auto. apply (entry_stored _ _ H3).
Qed.

End identity_laws.

(** C3, as the code has it.  For every matrix [m] of 16 elements on whose
    entries one and zero act exactly ([exact_on]: a product with 1 is the
    entry, a product with 0 is a zero, adding a zero changes nothing, and
    the entry is a value a [Float32Array] holds), [multiply(identity(), m)]
    and [multiply(m, identity())] are [m], element for element. *)
Theorem multiply_identity (zeros : num → Prop) m :
  length m = 16%nat → exact_on zeros m →
  multiply identity m = m ∧ multiply m identity = m.
Proof.
  intros Hlen [Hone Hadd Hall]. list_elements m Hlen.
  rewrite !Forall_cons in Hall. destruct_and!.
  rewrite !multiply_unfold, identity_unfold.
  cbv -[num_add num_mul fround of_Z]. rewrite !Hone.
  split.
  - repeat match goal with
      | |- fround (_ ⊗ ?c0 ⊕ _ ⊗ ?c1 ⊕ _ ⊗ ?c2 ⊕ _ ⊗ ?c3) :: _ = _ =>
          destruct (identity_column zeros Hadd c0 c1 c2 c3) as (E0 & E1 & E2 & E3);
          [done.. |]; rewrite E0, E1, E2, E3; clear E0 E1 E2 E3;
          do 4 f_equal
      end.
  - destruct_and?.
    repeat match goal with
      | |- fround (?r0 ⊗ _ ⊕ ?r1 ⊗ _ ⊕ ?r2 ⊗ _ ⊕ ?r3 ⊗ _) :: _ = _ =>
          destruct (identity_row zeros Hadd r0 r1 r2 r3) as (E0 & E1 & E2 & E3);
          [done.. |]; rewrite E0, E1, E2, E3; clear E0 E1 E2 E3;
          f_equal
      end.
Qed.

End mat4_facts.

(** C2. [multiply(a, b)] is a new array of 16 elements whose element
    (row, col), at index [col*4 + row], is the element (row, col) of the
    plain product [a · b] as a [Float32Array] stores it: with column
    vectors, [v' = M·v], [b] is applied first and [a] second.  In floating
    point, [multiply(scaling(2,2,2), translation(1,0,0))] takes the point
    (0,0,0,1) to (2,0,0,1). *)
Theorem multiply_product :
  (∀ (num : Type) (N : Number num) (a b : Mat4 num),
     length a = 16%nat → length b = 16%nat →
     length (multiply a b) = 16%nat ∧
     ∀ row col, 0 ≤ row < 4 → 0 ≤ col < 4 →
       ta_lookup (multiply a b) (col * 4 + row) =
         Some (fround (product_entry a b row col))) ∧
  (transform (multiply (scaling 2 2 2) (translation 1 0 0)) [0; 0; 0; 1]
     = [2; 0; 0; 1])%float.
Proof.
  split.
  - intros num N a b _ _. split; [apply multiply_length | apply multiply_lookup].
  - vm_compute. reflexivity.
Qed.

(** ** The matrices in real arithmetic *)

Section mat4_real.
Implicit Types (a b c m : Mat4 R) (v : list R).
Local Open Scope R_scope.

(** One and zero act exactly on every real number. *)
Lemma real_matrix_exact m : exact_on (λ z, z = 0) m.
Proof.
  split; [done | intros z z' -> ->; cbn; ring |].
  apply Forall_forall. intros x _.
  split; cbn; [done | ring | ring | ring | ring |].
  intros z ->. split; ring.
Qed.

(** The product applies its second factor first. *)
Lemma transform_multiply a b v :
  length a = 16%nat → length b = 16%nat → length v = 4%nat →
  transform (multiply a b) v = transform a (transform b v).
Proof.
  intros Ha Hb Hv. list_elements a Ha. list_elements b Hb. list_elements v Hv.
  cbv. real_list_eq.
Qed.


End mat4_real.

(** ** The sphere in real arithmetic *)

Section sphere_real.
Implicit Types (radius : R) (stacks slices stack slice : Z).
Local Open Scope R_scope.

Lemma polar_angle_north stacks : polar_angle stacks 0 = 0.
Proof. unfold polar_angle. cbn. unfold Rdiv. ring. Qed.

Lemma polar_angle_south stacks : (1 ≤ stacks)%Z → polar_angle stacks stacks = PI.
Proof.
  intros. unfold polar_angle. cbn. field. apply not_0_IZR. lia.
Qed.

Lemma vertex_north radius stacks slices slice :
  vertex_x radius stacks slices 0 slice = 0 ∧
  vertex_y radius stacks 0 = radius ∧
  vertex_z radius stacks slices 0 slice = 0.
Proof.
  unfold vertex_x, vertex_y, vertex_z. rewrite polar_angle_north. cbn.
  rewrite sin_0, cos_0. split_and!; ring.
Qed.

Lemma vertex_south radius stacks slices slice :
  (1 ≤ stacks)%Z →
  vertex_x radius stacks slices stacks slice = 0 ∧
  vertex_y radius stacks stacks = - radius ∧
  vertex_z radius stacks slices stacks slice = 0.
Proof.
  intros. unfold vertex_x, vertex_y, vertex_z. rewrite polar_angle_south by done.
  cbn. rewrite sin_PI, cos_PI. split_and!; ring.
Qed.

Lemma vertex_norm radius stacks slices stack slice :
  sqrt (vertex_x radius stacks slices stack slice *
          vertex_x radius stacks slices stack slice +
        vertex_y radius stacks stack * vertex_y radius stacks stack +
        vertex_z radius stacks slices stack slice *
          vertex_z radius stacks slices stack slice) = Rabs radius.
Proof.
  unfold vertex_x, vertex_y, vertex_z.
  generalize (polar_angle stacks stack) (azimuth slices slice). intros phi theta.
  cbn.
  pose proof (sin2_cos2 phi) as Hphi. pose proof (sin2_cos2 theta) as Htheta.
  unfold Rsqr in Hphi, Htheta.
  rewrite <- sqrt_Rsqr_abs. f_equal. unfold Rsqr.
  replace (radius * sin phi * cos theta * (radius * sin phi * cos theta) +
           radius * cos phi * (radius * cos phi) +
           radius * sin phi * sin theta * (radius * sin phi * sin theta))
    with (radius * radius *
          (sin phi * sin phi * (sin theta * sin theta + cos theta * cos theta) +
           cos phi * cos phi)) by ring.
  rewrite Htheta, Rmult_1_r, Hphi. ring.
Qed.
End sphere_real.

Section sphere_real_statements.
Context {memory : Memory}.
Implicit Types (radius : R) (stacks slices stack slice : Z).
Local Open Scope R_scope.


End sphere_real_statements.

(** ** The statements at concrete inputs *)

Section concrete_inputs.
Local Open Scope R_scope.

(** The examples run on the host with the least memory, except those that
    show an allocation to fail whatever the memory. *)
Local Existing Instance least_memory.

(** [createSphereMesh(1, 2, 4)]: 15 vertices and 48 indices. *)
Lemma createSphereMesh_shape_1_2_4 :
  ∃ mesh,
    (createSphereMesh 1 2 4 []).2 = inr mesh ∧
    vertexCount mesh = 15%Z ∧
    length (positions mesh) = 45%nat ∧
    length (uvs mesh) = 30%nat ∧
    length (indices mesh) = 48%nat ∧
    indexCount mesh = 48%Z ∧
    Forall (λ i, (i < 15)%Z) (indices mesh).
Proof.
  destruct (createSphereMesh_shape 1 2 4 [] ltac:(lia) ltac:(lia)
              ltac:(apply mesh_fits_small; lia))
    as (mesh & Hrun & Hvc & Hlp & Hlu & Hli & Hic & Hall).
  exists mesh. rewrite Hvc in *. rewrite Hic in *.
  split_and!; [exact Hrun | reflexivity | lia | lia | lia | reflexivity | exact Hall].
Defined.

(** Cell (1, 2) of a mesh of 2 stacks and 4 slices: the indices from
    offset 36 are 7, 12, 8, 8, 12, 13. *)
Lemma createSphereMesh_cell_1_2 :
  ∃ mesh,
    (createSphereMesh 1 2 4 []).2 = inr mesh ∧
    ta_lookup (indices mesh) <$> [36; 37; 38; 39; 40; 41]%Z =
      Some <$> [7; 12; 8; 8; 12; 13]%Z.
Proof.
  destruct (createSphereMesh_cell 1 2 4 [] 1 2
              ltac:(lia) ltac:(lia) ltac:(apply mesh_fits_small; lia)
              ltac:(lia) ltac:(lia))
    as (mesh & Hrun & _ & Hsmall).
  exists mesh. split; [exact Hrun | apply Hsmall; lia].
Defined.

(** A mesh of 1 stack and 32768 slices has 65538 vertices.  In its last
    cell, (0, 32767), [second] is 32767 + 32769 = 65536, and the entry
    of [indices] that receives it holds 0. *)
Lemma createSphereMesh_cell_wraps :
  ∃ mesh,
    (createSphereMesh 1 1 32768 []).2 = inr mesh ∧
    ta_lookup (indices mesh) (6 * (0 * 32768 + 32767) + 1)%Z = Some 0%Z ∧
    ((0 * (32768 + 1) + 32767) + (32768 + 1) = 65536)%Z.
Proof.
  destruct (createSphereMesh_run 1 1 32768 []) as
    (mesh & Hrun & _ & _ & _ & (_ & _ & _ & Hcells));
    [lia | lia | apply mesh_fits_small; lia |].
  destruct (Hcells 0%Z 32767%Z) as (_ & Hsecond & _); [lia | lia | done |].
  exists mesh. rewrite Hrun. split_and!; [done | exact Hsecond | done].
Qed.

(** Vertex (1, 2) of a mesh of 2 stacks and 4 slices: u = 2/4 and
    v = 1/2, at 14 and 15. *)
Lemma createSphereMesh_uv_1_2 :
  ∃ mesh,
    (createSphereMesh 1 2 4 []).2 = inr mesh ∧
    ta_lookup (uvs mesh) 14%Z = Some (2 / 4) ∧
    ta_lookup (uvs mesh) 15%Z = Some (1 / 2).
Proof.
  exact (createSphereMesh_uv 1 2 4 [] 1 2
           ltac:(lia) ltac:(lia) ltac:(apply mesh_fits_small; lia)
           ltac:(lia) ltac:(lia)).
Defined.



(** 255 stacks and 256 slices make 65792 vertices: one warning, and the
    mesh all the same. *)
Lemma createSphereMesh_total_255_256 :
  ∃ mesh,
    createSphereMesh 1 255 256 [] =
      (["[createSphereMesh] vertexCount(65792) > 65535. Clamping for WebGL1 Uint16 index compatibility."%string],
       inr mesh) ∧
    Z.of_nat (length (positions mesh)) = 197376%Z ∧
    Z.of_nat (length (indices mesh)) = 391680%Z ∧
    Forall (λ i, (0 ≤ i < 65536)%Z) (indices mesh).
Proof.
  destruct (createSphereMesh_total 1 255 256 [] ltac:(lia) ltac:(lia)
              ltac:(apply mesh_fits_small; lia))
    as (mesh & Hrun & Hvc & Hic & Hlp & Hlu & Hli & Hall & _).
  exists mesh. split_and!; [exact Hrun | lia | lia | exact Hall].
Defined.

(** Two calls in a row from an empty store: the positions of the first are
    array 0, those of the second array 2, and after the second call they
    hold the same 45 numbers. *)
Lemma createSphereMesh_deterministic_1_2_4 :
  ∃ mesh1 σ1 mesh2 σ2 P,
    sphere_objects.createSphereMesh 1 2 4 (sphere_objects.Build_State [] [] []) =
      (σ1, inr mesh1) ∧
    sphere_objects.createSphereMesh 1 2 4 σ1 = (σ2, inr mesh2) ∧
    sphere_objects.positions mesh1 = 0%nat ∧
    sphere_objects.positions mesh2 = 2%nat ∧
    sphere_objects.float32_arrays σ2 !! 0%nat = Some P ∧
    sphere_objects.float32_arrays σ2 !! 2%nat = Some P.
Proof.
  destruct (createSphereMesh_deterministic 1 2 4
              (sphere_objects.Build_State [] [] [])
              (sphere_objects.createSphereMesh 1 2 4
                 (sphere_objects.Build_State [] [] [])).1
              ltac:(apply mesh_fits_small; lia))
    as (mesh1 & σ1 & mesh2 & σ2 & P & U & X & Hrun1 & Hrun2 & _ & (Hp2 & _) & _ & _ &
        (Href1 & _ & _ & Hlen & _) & (Href2 & _) & Hrow).
  rewrite Hrun1 in Hrun2, Href2, Hrow. cbn [fst] in Hrun2, Href2, Hrow.
  destruct (Hrow eq_refl) as (_ & _ & _ & (Hp1 & _)).
  rewrite Hlen in Href2. cbn in Href1, Href2.
  rewrite Href1 in Hp1. rewrite Href2 in Hp2.
  exists mesh1, σ1, mesh2, σ2, P.
  split_and!; [exact Hrun1 | exact Hrun2 | exact Href1 | exact Href2 | exact Hp1 | exact Hp2].
Defined.

(** 134217727 stacks and slices make 2^54 vertices: the positions would
    be 3 * 2^54 numbers, more than an array can have on any host, and the
    call ends in a [RangeError], after the warning. *)
Lemma createSphereMesh_shape_too_large :
  createSphereMesh (memory := endless_memory) 1 134217727 134217727 [] =
    (["[createSphereMesh] vertexCount(18014398509481984) > 65535. Clamping for WebGL1 Uint16 index compatibility."%string],
     inl RangeError).
Proof. vm_compute. reflexivity. Qed.

(** 2^53 - 1 stacks of one slice: the warning is logged, and then the
    allocation of the positions raises a [RangeError], on a host that never
    runs out of memory as on any other. *)
Lemma createSphereMesh_total_range_error :
  (createSphereMesh (memory := endless_memory) 1 9007199254740991 1 []).2 =
    inl RangeError ∧
  length (createSphereMesh (memory := endless_memory) 1 9007199254740991 1 []).1 = 1%nat.
Proof. vm_compute. split; reflexivity. Qed.


End concrete_inputs.

Section concrete_floats.
Local Open Scope float_scope.

(** Element (row 0, col 3) of [multiply(scaling(2,2,2), translation(1,0,0))],
    at index 12, is 2. *)
Lemma multiply_product_scaling_translation :
  length (multiply (scaling 2 2 2) (translation 1 0 0)) = 16%nat ∧
  ta_lookup (multiply (scaling 2 2 2) (translation 1 0 0)) (3 * 4 + 0) = Some 2.
Proof.
  destruct multiply_product as [Hgeneral _].
  destruct (Hgeneral float _ (scaling 2 2 2) (translation 1 0 0) eq_refl eq_refl)
    as [Hlength Hentry].
  split; [exact Hlength | exact (Hentry 0%Z 3%Z ltac:(lia) ltac:(lia))].
Defined.

(** The zeros of floating point are closed under addition. *)
Lemma float_zeros_add z z' : float_zeros z → float_zeros z' → float_zeros (z ⊕ z').
Proof. intros [-> | ->] [-> | ->]; vm_compute; auto. Qed.

(** The identity laws at a translation by (-1, 2, 3). *)
Lemma multiply_identity_translation :
  multiply identity (translation (-1) 2 3) = translation (-1) 2 3 ∧
  multiply (translation (-1) 2 3) identity = translation (-1) 2 3.
Proof.
  apply (multiply_identity float_zeros); [reflexivity|].
  split; [vm_compute; reflexivity | exact float_zeros_add |].
  repeat (apply Forall_cons; split); [.. | by apply Forall_nil].
  all: split;
    [vm_compute; reflexivity.. | vm_compute; auto | vm_compute; auto |].
  all: intros z [-> | ->]; split; vm_compute; reflexivity.
Defined.

(** [scaling(Infinity, 1, 1)] has 0 at index 1; its product with the
    identity has NaN there, from [0 * Infinity]. *)
Lemma multiply_identity_infinity :
  ta_lookup (scaling infinity 1 1) 1 = Some 0 ∧
  ta_lookup (multiply identity (scaling infinity 1 1)) 1 = Some nan ∧
  multiply identity (scaling infinity 1 1) ≠ scaling infinity 1 1.
Proof.
  split_and!; [vm_compute; reflexivity.. |].
  intros Heq. apply (f_equal (λ m, is_nan (f32_get m 1))) in Heq.
  vm_compute in Heq. discriminate.
Qed.


(** The first vertex of a sphere of radius 2^130, a number beyond the
    range of a [Float32Array]: whatever the implementation of the sine and
    the cosine, it is stored as (0, Infinity, 0). *)
Lemma createSphereMesh_first_vertex_overflow (memory : Memory) sin_approx cos_approx :
  ∃ mesh,
    (createSphereMesh (MathObject0 := Math_float sin_approx cos_approx)
       0x1p+130 1 1 []).2 = inr mesh ∧
    ta_lookup (positions mesh) <$> [0; 1; 2]%Z = [Some 0; Some infinity; Some 0].
Proof.
  destruct (createSphereMesh_position (MathObject0 := Math_float sin_approx cos_approx)
              0x1p+130 1 1 [] 0 0) as (mesh & Hrun & Hx & Hy & Hz);
    [lia | lia | apply mesh_fits_small; lia | lia | lia |].
  exists mesh. split; [exact Hrun|].
  change (3 * vertex_index 1 0 0)%Z with 0%Z in Hx.
  change (3 * vertex_index 1 0 0 + 1)%Z with 1%Z in Hy.
  change (3 * vertex_index 1 0 0 + 2)%Z with 2%Z in Hz.
  cbn [fmap list_fmap]. rewrite Hx, Hy, Hz. vm_compute. reflexivity.
Qed.

(** The vertex (0, 3), on the north pole, of a sphere of radius 2^128 with
    2 stacks and 4 slices: its y is stored as Infinity. *)
Lemma createSphereMesh_pole_vertex_overflow (memory : Memory) sin_approx cos_approx :
  ∃ mesh,
    (createSphereMesh (MathObject0 := Math_float sin_approx cos_approx)
       0x1p+128 2 4 []).2 = inr mesh ∧
    ta_lookup (positions mesh) 10%Z = Some infinity.
Proof.
  destruct (createSphereMesh_position (MathObject0 := Math_float sin_approx cos_approx)
              0x1p+128 2 4 [] 0 3) as (mesh & Hrun & _ & Hy & _);
    [lia | lia | apply mesh_fits_small; lia | lia | lia |].
  exists mesh. split; [exact Hrun|].
  change (3 * vertex_index 4 0 3 + 1)%Z with 10%Z in Hy.
  rewrite Hy. vm_compute. reflexivity.
Qed.



End concrete_floats.

(** * More of the matrices: [rotationZ], [ortho] and how matrices act *)

Section mat4_real_action.
Implicit Types (a b c m : Mat4 R) (v : list R).
Implicit Types (x y z w tx ty tz sx sy sz α β : R).
Local Open Scope R_scope.

(** [translation(tx, ty, tz)] moves a point by (tx, ty, tz) and leaves a
    direction, whose fourth component is 0, as it is. *)
Theorem translation_action tx ty tz x y z w :
  transform (translation tx ty tz) [x; y; z; w] =
    [x + tx * w; y + ty * w; z + tz * w; w] ∧
  transform (translation tx ty tz) [x; y; z; 1] = [x + tx; y + ty; z + tz; 1] ∧
  transform (translation tx ty tz) [x; y; z; 0] = [x; y; z; 0].
Proof. split_and!; cbv -[sin cos PI IZR]; real_list_eq. Qed.

(** [scaling(sx, sy, sz)] multiplies the three coordinates and keeps the
    fourth. *)
Lemma scaling_action sx sy sz x y z w :
  transform (scaling sx sy sz) [x; y; z; w] = [sx * x; sy * y; sz * z; w].
Proof. cbv -[sin cos PI IZR]. real_list_eq. Qed.

(** [rotationZ(α)] turns (x, y) by the angle α, counter-clockwise, keeps
    z and w, and keeps the length of (x, y). *)
Theorem rotationZ_action α x y z w :
  transform (rotationZ α) [x; y; z; w] =
    [x * cos α - y * sin α; x * sin α + y * cos α; z; w] ∧
  (x * cos α - y * sin α) * (x * cos α - y * sin α) +
  (x * sin α + y * cos α) * (x * sin α + y * cos α) = x * x + y * y.
Proof.
  split; [cbv -[sin cos PI IZR]; real_list_eq|].
  pose proof (sin2_cos2 α) as H. unfold Rsqr in H.
  replace (x * x + y * y)
    with ((x * x + y * y) * (sin α * sin α + cos α * cos α)) by (rewrite H; ring).
  ring.
Qed.

Lemma rotationZ_0 : rotationZ 0 = identity.
Proof. cbv -[sin cos PI IZR]. rewrite sin_0, cos_0. real_list_eq. Qed.

Lemma rotationZ_plus α β : multiply (rotationZ α) (rotationZ β) = rotationZ (α + β).
Proof. cbv -[sin cos PI IZR]. rewrite sin_plus, cos_plus. real_list_eq. Qed.

(** Rotations about z compose by adding their angles: [rotationZ(0)] is
    the identity, and [rotationZ(-α)] undoes [rotationZ(α)] on either
    side. *)
Theorem rotationZ_compose α β :
  multiply (rotationZ α) (rotationZ β) = rotationZ (α + β) ∧
  rotationZ 0 = identity ∧
  multiply (rotationZ α) (rotationZ (- α)) = identity ∧
  multiply (rotationZ (- α)) (rotationZ α) = identity.
Proof.
  split_and!; [apply rotationZ_plus | apply rotationZ_0 | |].
  - rewrite rotationZ_plus, Rplus_opp_r. apply rotationZ_0.
  - rewrite rotationZ_plus, Rplus_opp_l. apply rotationZ_0.
Qed.

(** Translations compose by adding their offsets, and the opposite
    translation undoes one. *)
Theorem translation_compose tx ty tz x y z :
  multiply (translation tx ty tz) (translation x y z) =
    translation (tx + x) (ty + y) (tz + z) ∧
  multiply (translation tx ty tz) (translation (- tx) (- ty) (- tz)) = identity.
Proof. split; cbv -[sin cos PI IZR]; real_list_eq. Qed.

(** Scalings compose by multiplying their factors; a scaling by factors
    other than 0 is undone by the scaling by their inverses. *)
Theorem scaling_compose sx sy sz x y z :
  multiply (scaling sx sy sz) (scaling x y z) = scaling (sx * x) (sy * y) (sz * z) ∧
  (sx ≠ 0 → sy ≠ 0 → sz ≠ 0 →
   multiply (scaling sx sy sz) (scaling (/ sx) (/ sy) (/ sz)) = identity).
Proof.
  split; [cbv -[sin cos PI IZR]; real_list_eq|].
  intros. cbv -[sin cos PI IZR]. real_list_field.
Qed.

(** [ortho(left, right, bottom, top, near, far)] of a box that is not flat
    maps x in [left, right] and y in [bottom, top] affinely onto [-1, 1],
    and z from [-near] down to [-far] onto [-1, 1]: the corner
    (left, bottom, -near) goes to (-1, -1, -1) and (right, top, -far) to
    (1, 1, 1). *)
Theorem ortho_action (left right bottom top near far : R) x y z :
  left ≠ right → bottom ≠ top → near ≠ far →
  transform (ortho left right bottom top near far) [x; y; z; 1] =
    [(2 * x - (right + left)) / (right - left);
     (2 * y - (top + bottom)) / (top - bottom);
     (- 2 * z - (far + near)) / (far - near); 1] ∧
  transform (ortho left right bottom top near far) [left; bottom; - near; 1] =
    [-1; -1; -1; 1] ∧
  transform (ortho left right bottom top near far) [right; top; - far; 1] =
    [1; 1; 1; 1].
Proof.
  intros. split_and!; cbv -[sin cos PI IZR]; real_list_field.
Qed.

(** An orthographic projection is a translation of the centre of the box
    to the origin followed by a scaling. *)
Theorem ortho_decompose (left right bottom top near far : R) :
  left ≠ right → bottom ≠ top → near ≠ far →
  ortho left right bottom top near far =
    multiply
      (scaling (2 / (right - left)) (2 / (top - bottom)) (- 2 / (far - near)))
      (translation (- (right + left) / 2) (- (top + bottom) / 2) ((far + near) / 2)).
Proof. intros. cbv -[sin cos PI IZR]. real_list_field. Qed.


End mat4_real_action.

(** * The matrix of a frame of Transform01 *)

Section transform01_real.
Import transform01.
Local Open Scope R_scope.

(** [degToRad] is linear, and takes 180 degrees to pi. *)
Lemma degToRad_real (deg : R) : degToRad deg = deg * (PI / 180) ∧ degToRad 180 = PI.
Proof. unfold degToRad. cbn. split; field. Qed.

(** The matrix [mvp = T × Rz × S] of a frame scales a vertex by [scale],
    then turns it by [rotDeg] degrees about z, then moves it by
    ([tx], [ty]); z and w pass unchanged. *)
Theorem frame_mvp_action (state : TransformState R) (x y z : R) :
  let θ := rotDeg state * (PI / 180) in
  transform (frame_mvp state) [x; y; z; 1] =
    [tx state + scale state * (x * cos θ - y * sin θ);
     ty state + scale state * (x * sin θ + y * cos θ);
     z; 1].
Proof.
  intros θ. unfold frame_mvp.
  generalize (proj1 (degToRad_real (rotDeg state))). fold θ.
  generalize (degToRad (rotDeg state)). intros rad ->.
  destruct state as [tx0 ty0 rot0 s0]. cbn [tx ty scale].
  generalize θ. clear θ. intros θ.
  cbv -[sin cos PI IZR]. real_list_eq.
Qed.

End transform01_real.

(** * NaN in a product *)

Section multiply_nan_facts.
Local Open Scope float_scope.
Implicit Types (x : float) (a b : Mat4 float).

Lemma float_nan_mul_l x : nan * x = nan.
Proof. apply Prim2SF_inj. rewrite mul_spec. reflexivity. Qed.

Lemma float_nan_mul_r x : x * nan = nan.
Proof.
  apply Prim2SF_inj. rewrite mul_spec.
  change (Prim2SF nan) with S754_nan. by destruct (Prim2SF x).
Qed.

Lemma float_nan_add_l x : nan + x = nan.
Proof. apply Prim2SF_inj. rewrite add_spec. reflexivity. Qed.

Lemma float_nan_add_r x : x + nan = nan.
Proof.
  apply Prim2SF_inj. rewrite add_spec.
  change (Prim2SF nan) with S754_nan. by destruct (Prim2SF x).
Qed.

(** A sum of four products is NaN as soon as one factor is. *)
Lemma product_entry_nan a b (row col k : Z) :
  (0 ≤ k < 4)%Z →
  entry a row k = nan ∨ entry b k col = nan →
  product_entry a b row col = nan.
Proof.
  intros Hk Hnan. unfold product_entry. cbn [num_add num_mul Number_float].
  assert (k = 0 ∨ k = 1 ∨ k = 2 ∨ k = 3)%Z as Hcases by lia.
  destruct Hcases as [-> | [-> | [-> | ->]]]; destruct Hnan as [Hnan | Hnan];
    rewrite Hnan;
    repeat first [rewrite float_nan_mul_l | rewrite float_nan_mul_r
                 | rewrite float_nan_add_l | rewrite float_nan_add_r];
    reflexivity.
Qed.

(** In floating point, [multiply] never fails on a NaN or on a missing
    element, which reads as NaN: a NaN in row [row] of [a] makes row [row]
    of the product NaN, a NaN in column [col] of [b] makes column [col] of
    the product NaN, and an [a] of fewer than 13 elements or a [b] of
    fewer than 4 makes all 16 elements NaN. *)
Theorem multiply_nan a b :
  (∀ row col k, (0 ≤ row < 4)%Z → (0 ≤ col < 4)%Z → (0 ≤ k < 4)%Z →
     f32_get a (k * 4 + row) = nan ∨ f32_get b (col * 4 + k) = nan →
     ta_lookup (multiply a b) (col * 4 + row) = Some nan) ∧
  ((length a ≤ 12)%nat ∨ (length b ≤ 3)%nat → multiply a b = replicate 16 nan).
Proof.
  assert (∀ row col k, (0 ≤ row < 4)%Z → (0 ≤ col < 4)%Z → (0 ≤ k < 4)%Z →
     f32_get a (k * 4 + row) = nan ∨ f32_get b (col * 4 + k) = nan →
     ta_lookup (multiply a b) (col * 4 + row) = Some nan) as Hrow.
  { intros row col k Hrow Hcol Hk Hnan.
    rewrite multiply_lookup by done.
    by rewrite (product_entry_nan a b row col k Hk Hnan). }
  split; [exact Hrow|].
  intros Hshort.
  assert (∀ row col, (0 ≤ row < 4)%Z → (0 ≤ col < 4)%Z →
    ta_lookup (multiply a b) (col * 4 + row) = Some nan) as Hall.
  { intros row col Hr Hc. apply (Hrow row col 3%Z Hr Hc ltac:(lia)).
    destruct Hshort as [Ha | Hb]; [left | right].
    - unfold f32_get, ta_lookup. case_decide; [|lia].
      by rewrite lookup_ge_None_2 by lia.
    - unfold f32_get, ta_lookup. case_decide; [|lia].
      assert (col = 0 ∨ col = 1 ∨ col = 2 ∨ col = 3)%Z as Hcases by lia.
      destruct b as [|? [|? [|? [|? ?]]]]; simpl in Hb; try lia;
        destruct_or!; subst col; reflexivity. }
  apply list_eq. intros i.
  destruct (decide (i < 16)%nat) as [Hi|Hi].
  - rewrite lookup_replicate_2 by done.
    specialize (Hall (Z.of_nat i mod 4)%Z (Z.of_nat i / 4)%Z).
    pose proof (Z.mod_pos_bound (Z.of_nat i) 4 ltac:(lia)).
    pose proof (Z.div_mod (Z.of_nat i) 4 ltac:(lia)).
    assert (0 ≤ Z.of_nat i / 4 < 4)%Z
      by (split; [apply Z.div_pos; lia | apply Z.div_lt_upper_bound; lia]).
    replace (Z.of_nat i / 4 * 4 + Z.of_nat i mod 4)%Z with (Z.of_nat i) in Hall by lia.
    unfold ta_lookup in Hall. case_decide; [|lia].
    rewrite Nat2Z.id in Hall. by apply Hall.
  - rewrite !lookup_ge_None_2; [done | rewrite length_replicate; lia |
      rewrite multiply_length; lia].
Qed.

(** An empty first factor, and an identity with NaN written at index 5. *)
Lemma multiply_nan_examples :
  multiply [] identity = replicate 16 nan ∧
  ta_lookup (multiply (f32_set identity 5 nan) identity) (3 * 4 + 1) = Some nan.
Proof.
  destruct (multiply_nan [] identity) as [_ Hshort].
  destruct (multiply_nan (f32_set identity 5 nan) identity) as [Hrow _].
  split.
  - apply Hshort. left. simpl. lia.
  - apply (Hrow 1%Z 3%Z 1%Z); [lia.. |]. left. reflexivity.
Defined.

End multiply_nan_facts.

(** * More of the sphere mesh: edge cases, coverage, the page's ranges *)

Section sphere_edges.
Context {num : Type} `{!Number num, !MathObject num} {memory : Memory}.
Implicit Types (radius : num) (stacks slices : Z) (out : list string).


(** With no stack or no slice ([stacks = 0] or [slices = 0], neither
    negative), and arrays that the host allocates, the call returns a mesh
    of [(stacks+1)*(slices+1)] vertices and no index at all. *)
Theorem createSphereMesh_no_cells radius stacks slices out :
  0 ≤ stacks → 0 ≤ slices → stacks = 0 ∨ slices = 0 → mesh_fits stacks slices →
  ∃ mesh,
    (createSphereMesh radius stacks slices out).2 = inr mesh ∧
    indices mesh = [] ∧ indexCount mesh = 0 ∧
    vertexCount mesh = (stacks + 1) * (slices + 1) ∧
    Z.of_nat (length (positions mesh)) = 3 * vertexCount mesh ∧
    Z.of_nat (length (uvs mesh)) = 2 * vertexCount mesh.
Proof.
  intros Hstacks Hslices Hzero Hfits.
  destruct (createSphereMesh_run radius stacks slices out) as
    (mesh & Hrun & Hvc & Hic & (_ & Hlp & Hlu & _) & (_ & Hli & _)); [done.. |].
  exists mesh. rewrite Hrun, Hvc, Hic, Hlp, Hlu.
  assert (stacks * slices = 0) as Hcells by (destruct Hzero; subst; lia).
  rewrite Hcells in *.
  split_and!; [done | by apply nil_length_inv | done | done | nia | nia].
Qed.

(** With [stacks] and [slices] both negative, and arrays that the host
    allocates, no loop runs and nothing fails: the mesh has
    [stacks*slices*6] indices, all 0, and [(stacks+1)*(slices+1)]
    vertices, all at the origin.  For [stacks = -1] or [slices = -1] it
    has indices and no vertex. *)
Theorem createSphereMesh_negative_both radius stacks slices out :
  stacks < 0 → slices < 0 → mesh_fits stacks slices →
  ∃ mesh,
    (createSphereMesh radius stacks slices out).2 = inr mesh ∧
    vertexCount mesh = (stacks + 1) * (slices + 1) ∧
    indexCount mesh = stacks * slices * 6 ∧
    0 < indexCount mesh ∧
    positions mesh = replicate (Z.to_nat (vertexCount mesh * 3)) (of_Z 0) ∧
    uvs mesh = replicate (Z.to_nat (vertexCount mesh * 2)) (of_Z 0) ∧
    indices mesh = replicate (Z.to_nat (indexCount mesh)) 0.
Proof.
  intros Hstacks Hslices (Hp & Hu & Hi).
  unfold createSphereMesh, Float32Array_new, Uint16Array_new.
  rewrite Hp, Hu, Hi.
  repeat case_decide.
  all: unfold mbind, js_bind, mret, js_ret, console_warn, for_upto, for_below.
  all: replace (Z.to_nat (stacks + 1)) with 0%nat by lia.
  all: replace (Z.to_nat stacks) with 0%nat by lia.
  all: eexists; split; [reflexivity|]; cbn; split_and!; first [done | nia].
Qed.

End sphere_edges.

Section sphere_coverage.
Context {num : Type} `{!Number num, !MathObject num} {memory : Memory}.
Implicit Types (radius : num) (stacks slices stack slice : Z) (out : list string).

Lemma ta_lookup_elem_of {A : Type} (a : list A) i (v : A) :
  ta_lookup a i = Some v → v ∈ a.
Proof.
  unfold ta_lookup. case_decide; [|done]. apply list_elem_of_lookup_2.
Qed.

(** The six indices of a cell, when the vertex count fits 16 bits. *)
Lemma createSphereMesh_cell_exact radius stacks slices out :
  1 ≤ stacks → 1 ≤ slices → (stacks + 1) * (slices + 1) ≤ 65536 →
  ∃ mesh,
    createSphereMesh radius stacks slices out =
      (out ++ (if decide ((stacks + 1) * (slices + 1) > 65535)
               then [oversize_warning ((stacks + 1) * (slices + 1))] else []),
       inr mesh) ∧
    vertexCount mesh = (stacks + 1) * (slices + 1) ∧
    ∀ stack slice, 0 ≤ stack < stacks → 0 ≤ slice < slices →
      let first := vertex_index slices stack slice in
      let second := first + (slices + 1) in
      let offset := cell_index slices stack slice * 6 in
      ta_lookup (indices mesh) offset = Some first ∧
      ta_lookup (indices mesh) (offset + 1) = Some second ∧
      ta_lookup (indices mesh) (offset + 2) = Some (first + 1) ∧
      ta_lookup (indices mesh) (offset + 3) = Some (first + 1) ∧
      ta_lookup (indices mesh) (offset + 4) = Some second ∧
      ta_lookup (indices mesh) (offset + 5) = Some (second + 1).
Proof.
  intros Hstacks Hslices Hsmall.
  destruct (createSphereMesh_run radius stacks slices out) as
    (mesh & Hrun & Hvc & _ & _ & (_ & _ & _ & Hcells));
    [lia | lia | apply mesh_fits_small; lia |].
  exists mesh. split_and!; [done.. |].
  intros stack slice Hstack Hslice.
  pose proof (cell_index_bound stacks slices stack slice Hstack Hslice).
  destruct (Hcells stack slice) as (H0 & H1 & H2 & H3 & H4 & H5); [lia | done | lia |].
  cbv zeta in *.
  assert (0 ≤ vertex_index slices stack slice ∧
          vertex_index slices stack slice + (slices + 1) + 1 < (stacks + 1) * (slices + 1))
    as [? ?] by (unfold vertex_index; nia).
  rewrite !to_uint16_small in * by lia. done.
Qed.

(** When the vertex count fits 16 bits, every vertex of the grid is a
    corner of some triangle: no vertex is left out of [indices]. *)
Theorem createSphereMesh_covers radius stacks slices out v :
  1 ≤ stacks → 1 ≤ slices → (stacks + 1) * (slices + 1) ≤ 65536 →
  0 ≤ v < (stacks + 1) * (slices + 1) →
  ∃ mesh,
    (createSphereMesh radius stacks slices out).2 = inr mesh ∧ v ∈ indices mesh.
Proof.
  intros Hstacks Hslices Hsmall Hv.
  destruct (createSphereMesh_cell_exact radius stacks slices out) as
    (mesh & Hrun & _ & Hcells); [done.. |].
  exists mesh. rewrite Hrun. split; [done|].
  destruct (vertex_index_surj stacks slices v) as (stack & slice & Hstack & Hslice & <-);
    [lia | done |].
  destruct (decide (stack < stacks)) as [?|?], (decide (slice < slices)) as [?|?].
  - destruct (Hcells stack slice) as (H0 & _); [lia.. |].
    by apply ta_lookup_elem_of in H0.
  - destruct (Hcells stack (slice - 1)) as (_ & _ & H2 & _); [lia.. |].
    apply ta_lookup_elem_of in H2.
    by replace (vertex_index slices stack (slice - 1) + 1)
      with (vertex_index slices stack slice) in H2 by (unfold vertex_index; lia).
  - destruct (Hcells (stack - 1) slice) as (_ & H1 & _); [lia.. |].
    apply ta_lookup_elem_of in H1.
    by replace (vertex_index slices (stack - 1) slice + (slices + 1))
      with (vertex_index slices stack slice) in H1 by (unfold vertex_index; lia).
  - destruct (Hcells (stack - 1) (slice - 1)) as (_ & _ & _ & _ & _ & H5); [lia.. |].
    apply ta_lookup_elem_of in H5.
    by replace (vertex_index slices (stack - 1) (slice - 1) + (slices + 1) + 1)
      with (vertex_index slices stack slice) in H5 by (unfold vertex_index; lia).
Qed.

(** When the vertex count fits 16 bits, the three indices of every
    triangle are three different vertices, and the two triangles of a cell
    share the edge from [first+1] to [second]. *)
Theorem createSphereMesh_triangles radius stacks slices out stack slice :
  1 ≤ stacks → 1 ≤ slices → (stacks + 1) * (slices + 1) ≤ 65536 →
  0 ≤ stack < stacks → 0 ≤ slice < slices →
  ∃ mesh i0 i1 i2 j0 j1 j2,
    (createSphereMesh radius stacks slices out).2 = inr mesh ∧
    ta_lookup (indices mesh) <$>
      [6 * (stack * slices + slice); 6 * (stack * slices + slice) + 1;
       6 * (stack * slices + slice) + 2] = Some <$> [i0; i1; i2] ∧
    ta_lookup (indices mesh) <$>
      [6 * (stack * slices + slice) + 3; 6 * (stack * slices + slice) + 4;
       6 * (stack * slices + slice) + 5] = Some <$> [j0; j1; j2] ∧
    i0 ≠ i1 ∧ i1 ≠ i2 ∧ i0 ≠ i2 ∧ j0 ≠ j1 ∧ j1 ≠ j2 ∧ j0 ≠ j2 ∧
    j0 = i2 ∧ j1 = i1.
Proof.
  intros Hstacks Hslices Hsmall Hstack Hslice.
  destruct (createSphereMesh_cell_exact radius stacks slices out) as
    (mesh & Hrun & _ & Hcells); [done.. |].
  destruct (Hcells stack slice) as (H0 & H1 & H2 & H3 & H4 & H5); [done.. |].
  cbv zeta in *. unfold cell_index in *.
  replace (6 * (stack * slices + slice)) with ((stack * slices + slice) * 6) by lia.
  exists mesh. do 6 eexists. rewrite Hrun. simpl.
  rewrite H0, H1, H2, H3, H4, H5.
  split_and!; [done | done | done | lia..].
Qed.

(** The page Sphere01 builds its mesh from sliders that range over
    4..64 stacks and 4..128 slices: within these ranges the call logs no
    warning, every index is the number of an existing vertex, and there
    are at most 8385 vertices and 49152 indices. *)
Theorem createSphereMesh_page_ranges radius stacks slices out :
  4 ≤ stacks ≤ 64 → 4 ≤ slices ≤ 128 →
  ∃ mesh,
    createSphereMesh radius stacks slices out = (out, inr mesh) ∧
    vertexCount mesh ≤ 8385 ∧ indexCount mesh ≤ 49152 ∧
    Z.of_nat (length (indices mesh)) = indexCount mesh ∧
    Forall (λ i, 0 ≤ i < vertexCount mesh) (indices mesh).
Proof.
  intros Hstacks Hslices.
  destruct (createSphereMesh_run radius stacks slices out) as
    (mesh & Hrun & Hvc & Hic & _ & (_ & Hli & Hall & _));
    [lia | lia | apply mesh_fits_small; nia |].
  exists mesh. rewrite Hrun, Hvc, Hic, Hli.
  case_decide; [nia|].
  split_and!; [by rewrite app_nil_r | nia | nia | nia |].
  eapply Forall_impl; [exact Hall|]. simpl. lia.
Qed.

End sphere_coverage.

(** * More of the sphere in real arithmetic: seam, uv range, symmetry *)

Section sphere_real_geometry.
Context {memory : Memory}.
Implicit Types (radius : R) (stacks slices stack slice : Z) (out : list string).
Local Open Scope R_scope.

Lemma azimuth_start slices : azimuth slices 0 = 0.
Proof. unfold azimuth. cbn. unfold Rdiv. ring. Qed.

Lemma azimuth_end slices : (1 ≤ slices)%Z → azimuth slices slices = 2 * PI.
Proof. intros. unfold azimuth. cbn. field. apply not_0_IZR. lia. Qed.

Lemma polar_angle_mirror stacks stack :
  (1 ≤ stacks)%Z → polar_angle stacks (stacks - stack) = PI - polar_angle stacks stack.
Proof.
  intros. unfold polar_angle. cbn. rewrite minus_IZR. field.
  apply not_0_IZR. lia.
Qed.

Lemma cos_PI_minus x : cos (PI - x) = - cos x.
Proof. rewrite cos_minus, cos_PI, sin_PI. ring. Qed.

Lemma ratio_unit (a b : Z) : (0 ≤ a ≤ b)%Z → (1 ≤ b)%Z → 0 <= IZR a / IZR b <= 1.
Proof.
  intros Ha Hb.
  assert (0 < IZR b) by (apply IZR_lt; lia).
  assert (0 <= IZR a) by (apply IZR_le; lia).
  assert (IZR a <= IZR b) by (apply IZR_le; lia).
  split.
  - apply Rmult_le_pos; [done | by apply Rlt_le, Rinv_0_lt_compat].
  - apply (Rmult_le_reg_r (IZR b)); [done|]. field_simplify; lra.
Qed.

(** The whole record of a grid vertex: three coordinates and a uv pair. *)
Lemma createSphereMesh_vertex radius stacks slices out stack slice :
  (1 ≤ stacks)%Z → (1 ≤ slices)%Z → mesh_fits stacks slices →
  (0 ≤ stack ≤ stacks)%Z → (0 ≤ slice ≤ slices)%Z →
  ∃ mesh,
    (createSphereMesh radius stacks slices out).2 = inr mesh ∧
    ta_lookup (positions mesh) <$>
      [3 * vertex_index slices stack slice; 3 * vertex_index slices stack slice + 1;
       3 * vertex_index slices stack slice + 2]%Z =
      [Some (vertex_x radius stacks slices stack slice);
       Some (vertex_y radius stacks stack);
       Some (vertex_z radius stacks slices stack slice)] ∧
    ta_lookup (uvs mesh) <$>
      [2 * vertex_index slices stack slice; 2 * vertex_index slices stack slice + 1]%Z =
      [Some (IZR slice / IZR slices); Some (IZR stack / IZR stacks)].
Proof.
  intros Hstacks Hslices Hfits Hstack Hslice.
  destruct (createSphereMesh_run radius stacks slices out) as
    (mesh & Hrun & _ & _ & (_ & _ & _ & Hverts) & _); [lia | lia | done |].
  pose proof (vertex_index_bound stacks slices stack slice Hstack Hslice).
  destruct (Hverts stack slice) as (Hx & Hy & Hz & Hu & Hv); [lia | done | lia |].
  exists mesh. rewrite Hrun. split; [done|].
  replace (3 * vertex_index slices stack slice)%Z
    with (vertex_index slices stack slice * 3)%Z by lia.
  replace (2 * vertex_index slices stack slice)%Z
    with (vertex_index slices stack slice * 2)%Z by lia.
  cbn [fmap list_fmap]. by rewrite Hx, Hy, Hz, Hu, Hv.
Qed.


(** Every uv pair lies in the unit square; v is 0 on the first stack and
    1 on the last. *)
Theorem createSphereMesh_uv_range radius stacks slices out stack slice :
  (1 ≤ stacks)%Z → (1 ≤ slices)%Z → mesh_fits stacks slices →
  (0 ≤ stack ≤ stacks)%Z → (0 ≤ slice ≤ slices)%Z →
  ∃ mesh u v,
    (createSphereMesh radius stacks slices out).2 = inr mesh ∧
    ta_lookup (uvs mesh) <$>
      [2 * (stack * (slices + 1) + slice); 2 * (stack * (slices + 1) + slice) + 1]%Z =
      [Some u; Some v] ∧
    0 <= u <= 1 ∧ 0 <= v <= 1 ∧
    (stack = 0%Z → v = 0) ∧ (stack = stacks → v = 1).
Proof.
  intros Hstacks Hslices Hfits Hstack Hslice.
  destruct (createSphereMesh_vertex radius stacks slices out stack slice)
    as (mesh & Hrun & _ & Huv); [lia | lia | done | lia | lia |].
  exists mesh. do 2 eexists.
  split_and!; [exact Hrun | exact Huv | by apply ratio_unit.. | |].
  - intros ->. unfold Rdiv. ring.
  - intros ->. field. apply not_0_IZR. lia.
Qed.


End sphere_real_geometry.

(** * The clock of the frames of Sphere01 *)

Section sphere01_real.
Import sphere01.
Local Open Scope R_scope.

Lemma frame_clock_first (now angle : R) : frame_clock now (angle, 0) = (angle, now).
Proof.
  unfold frame_clock. cbn. destruct (Req_dec_T 0 0) as [_|?]; [|done].
  f_equal. unfold Rdiv. ring.
Qed.

Lemma frame_clock_next (now angle last : R) :
  last ≠ 0 → frame_clock now (angle, last) = (angle + (now - last) / 2000, now).
Proof.
  intros. unfold frame_clock. cbn. destruct (Req_dec_T last 0) as [?|_]; [done|].
  f_equal. field.
Qed.

Lemma last_cons_default {A : Type} (l : list A) (x d : A) :
  List.last (x :: l) d = List.last l x.
Proof.
  revert x d. induction l as [|y l IH]; intros x d; [done|].
  change (List.last (x :: y :: l) d) with (List.last (y :: l) d).
  by rewrite !IH.
Qed.

Lemma frames_from (stamps : list R) (angle last : R) :
  last ≠ 0 → Forall (λ t, t ≠ 0) stamps →
  foldl (λ st now, frame_clock now st) (angle, last) stamps =
    (angle + (List.last stamps last - last) / 2000, List.last stamps last).
Proof.
  intros Hlast Hall. revert angle last Hlast.
  induction Hall as [|t stamps Ht Hall IH]; intros angle last Hlast.
  - cbn. f_equal. unfold Rdiv. ring.
  - cbn [foldl]. rewrite frame_clock_next by done. rewrite IH by done.
    rewrite last_cons_default. f_equal. field.
Qed.

(** The rotation angle follows the clock, not the number of frames: after
    frames at time stamps [t0, ..., tn], none of them 0, the angle is
    [(tn - t0) / 2000], half a radian per second of the stamps'
    milliseconds, and [lastTime] is [tn].  The first frame, which finds
    [lastTime] at 0, turns nothing. *)
Theorem run_frames_elapsed (t0 : R) (stamps : list R) :
  Forall (λ t, t ≠ 0) (t0 :: stamps) →
  run_frames (t0 :: stamps) =
    ((List.last stamps t0 - t0) / 2000, List.last stamps t0) ∧
  run_frames [t0] = (0, t0).
Proof.
  intros Hall. apply Forall_cons in Hall as [Ht0 Hall].
  unfold run_frames. cbn [foldl]. change (of_Z 0) with 0.
  rewrite frame_clock_first. split; [|done].
  rewrite frames_from by done. f_equal. ring.
Qed.

End sphere01_real.

(** ** These statements at concrete inputs *)

Section more_concrete_inputs.
Import transform01 sphere01.
Local Open Scope R_scope.
Local Existing Instance least_memory.

(** The box [0,2] x [0,2] with near 1 and far 3: its far corner goes to
    (1, 1, 1). *)
Lemma ortho_action_far_corner :
  transform (ortho 0 2 0 2 1 3) [2; 2; Ropp 3; 1] = [1; 1; 1; 1].
Proof.
  exact (proj2 (proj2 (ortho_action 0 2 0 2 1 3 0 0 0
           ltac:(lra) ltac:(lra) ltac:(lra)))).
Defined.

Lemma ortho_decompose_box :
  ortho 0 2 0 2 1 3 =
    multiply (scaling (2 / (2 - 0)) (2 / (2 - 0)) (- 2 / (3 - 1)))
      (translation (- (2 + 0) / 2) (- (2 + 0) / 2) ((3 + 1) / 2)).
Proof. exact (ortho_decompose 0 2 0 2 1 3 ltac:(lra) ltac:(lra) ltac:(lra)). Defined.

(** A scaling by 2, 4 and 8 is undone by the scaling by 1/2, 1/4, 1/8. *)
Lemma scaling_inverse_2_4_8 :
  multiply (scaling 2 4 8) (scaling (/ 2) (/ 4) (/ 8)) = identity.
Proof.
  exact (proj2 (scaling_compose 2 4 8 0 0 0) ltac:(lra) ltac:(lra) ltac:(lra)).
Defined.


(** No stack, four slices: five vertices and no index. *)
Lemma createSphereMesh_no_cells_0_4 :
  ∃ mesh,
    (createSphereMesh 1 0 4 []).2 = inr mesh ∧
    indices mesh = [] ∧ vertexCount mesh = 5%Z.
Proof.
  destruct (createSphereMesh_no_cells 1 0 4 [] ltac:(lia) ltac:(lia) ltac:(by left)
              ltac:(apply mesh_fits_small; lia))
    as (mesh & Hrun & Hix & _ & Hvc & _).
  exists mesh. split_and!; [exact Hrun | exact Hix | exact Hvc].
Defined.

(** [createSphereMesh(1, -1, -1)]: six indices, all 0, and no vertex. *)
Lemma createSphereMesh_negative_both_1_1 :
  ∃ mesh,
    (createSphereMesh 1 (-1) (-1) []).2 = inr mesh ∧
    vertexCount mesh = 0%Z ∧ positions mesh = [] ∧
    indices mesh = [0; 0; 0; 0; 0; 0]%Z.
Proof.
  destruct (createSphereMesh_negative_both 1 (-1) (-1) [] ltac:(lia) ltac:(lia)
              ltac:(by vm_compute))
    as (mesh & Hrun & Hvc & Hic & _ & Hp & _ & Hix).
  exists mesh. rewrite Hvc in Hp. rewrite Hic in Hix.
  split_and!; [exact Hrun | exact Hvc | exact Hp | exact Hix].
Defined.

(** Vertex 14, the last of a mesh of 2 stacks and 4 slices, is a corner
    of a triangle. *)
Lemma createSphereMesh_covers_last :
  ∃ mesh, (createSphereMesh 1 2 4 []).2 = inr mesh ∧ 14%Z ∈ indices mesh.
Proof.
  exact (createSphereMesh_covers 1 2 4 [] 14
           ltac:(lia) ltac:(lia) ltac:(lia) ltac:(lia)).
Defined.

(** The two triangles of cell (1, 2) of that mesh: (7, 12, 8) and
    (8, 12, 13). *)
Lemma createSphereMesh_triangles_1_2 :
  ∃ mesh,
    (createSphereMesh 1 2 4 []).2 = inr mesh ∧
    ta_lookup (indices mesh) <$> [36; 37; 38; 39; 40; 41]%Z =
      Some <$> [7; 12; 8; 8; 12; 13]%Z.
Proof.
  destruct (createSphereMesh_triangles 1 2 4 [] 1 2
              ltac:(lia) ltac:(lia) ltac:(lia) ltac:(lia) ltac:(lia))
    as (mesh & i0 & i1 & i2 & j0 & j1 & j2 & Hrun & Hi & Hj & _).
  destruct (createSphereMesh_cell_exact 1 2 4 []) as (mesh' & Hrun' & _ & Hcells);
    [lia.. |].
  rewrite Hrun' in Hrun. injection Hrun as ->.
  destruct (Hcells 1%Z 2%Z) as (H0 & H1 & H2 & H3 & H4 & H5); [lia.. |].
  exists mesh. split; [by rewrite Hrun'|].
  cbn [fmap list_fmap]. f_equal; [exact H0|]. f_equal; [exact H1|].
  f_equal; [exact H2|]. f_equal; [exact H3|]. f_equal; [exact H4|].
  f_equal; exact H5.
Defined.

(** The mesh the page starts with, 32 stacks and 64 slices: no warning. *)
Lemma createSphereMesh_page_default :
  ∃ mesh,
    createSphereMesh 1 32 64 [] = ([], inr mesh) ∧
    vertexCount mesh ≤ 8385 ∧ indexCount mesh ≤ 49152.
Proof.
  destruct (createSphereMesh_page_ranges 1 32 64 [] ltac:(lia) ltac:(lia))
    as (mesh & Hrun & Hvc & Hic & _).
  exists mesh. split_and!; [exact Hrun | exact Hvc | exact Hic].
Defined.


Lemma createSphereMesh_uv_range_1_2 :
  ∃ mesh u v,
    (createSphereMesh 1 2 4 []).2 = inr mesh ∧
    ta_lookup (uvs mesh) <$> [14; 15]%Z = [Some u; Some v] ∧
    0 <= u <= 1 ∧ 0 <= v <= 1.
Proof.
  destruct (createSphereMesh_uv_range 1 2 4 [] 1 2
              ltac:(lia) ltac:(lia) ltac:(apply mesh_fits_small; lia)
              ltac:(lia) ltac:(lia))
    as (mesh & u & v & Hrun & Huv & Hu & Hv & _).
  exists mesh, u, v. split; [exact Hrun|]. split; [exact Huv|].
  split; [exact Hu | exact Hv].
Defined.


(** Three frames, at 16, 32 and 1016 milliseconds: one second, half a
    radian. *)
Lemma run_frames_one_second :
  run_frames [16; 32; 1016] = ((1016 - 16) / 2000, 1016).
Proof.
  refine (proj1 (run_frames_elapsed 16 [32; 1016] _)).
  repeat constructor; lra.
Defined.

End more_concrete_inputs.

(** * The shader helpers: which objects a run creates and deletes *)

Section shader_facts.
Import webgl.
Implicit Types (gl : GLenum) (h : Host) (tr : list event).

(** Whatever the context answers, [compileShader] leaks no shader object:
    when it returns a shader, the run created that one shader, found it
    compiled and deleted nothing; when it throws, the run has deleted the
    shader it created, if it created one. *)
Theorem compileShader_no_leak gl type source h (s : host_state h) :
  let '(tr, o) := run h (compileShader gl type source) s in
  match o with
  | inr shader =>
      omap shader_created tr = [shader] ∧ omap shader_deleted tr = [] ∧
      omap (shader_status true) tr = [shader]
  | inl _ =>
      omap shader_deleted tr = omap shader_created tr ∧
      omap (shader_status true) tr = []
  end.
Proof. unfold compileShader. host_answers; done. Qed.

(** When [createProgram] returns a program, the run created two shaders,
    from [vsSource] and from [fsSource], created that one program and did
    not delete it, and its last calls are the link, the reading of the link
    status and the deletion of the two shaders. *)
Theorem createProgram_returns gl vsSource fsSource h (s : host_state h) tr program :
  run h (createProgram gl vsSource fsSource) s = (tr, inr program) →
  ∃ vs fs,
    omap shader_created tr = [vs; fs] ∧
    omap shader_deleted tr = [vs; fs] ∧
    omap program_created tr = [program] ∧
    omap program_deleted tr = [] ∧
    Event (gl_shaderSource vs vsSource) () ∈ tr ∧
    Event (gl_shaderSource fs fsSource) () ∈ tr ∧
    ∃ tr', tr = tr' ++ [Event (gl_linkProgram program) ();
                        Event (gl_getProgramParameter program (LINK_STATUS gl)) true;
                        Event (gl_deleteShader vs) (); Event (gl_deleteShader fs) ()].
Proof.
  unfold createProgram, compileShader. host_answers; try done.
  intros [= <- <-]. do 2 eexists. split_and!; try done.
  - repeat constructor.
  - repeat constructor.
  - eexists (_ :: _ :: _ :: _ :: _ :: _ :: _ :: _ :: _ :: _ :: _ :: []). reflexivity.
Qed.

(** When [createProgram] throws, the run has deleted the program object if
    it created one, but of the shaders only those that failed to compile:
    a shader that compiled before the failure (of the other shader, of the
    creation of an object, or of the link) is never deleted. *)
Theorem createProgram_throws gl vsSource fsSource h (s : host_state h) tr message :
  run h (createProgram gl vsSource fsSource) s = (tr, inl message) →
  omap program_deleted tr = omap program_created tr ∧
  omap shader_deleted tr = omap (shader_status false) tr ∧
  omap shader_created tr = omap (shader_status true) tr ++ omap (shader_status false) tr.
Proof.
  unfold createProgram, compileShader. host_answers; try done.
  all: intros [= <- <-]; done.
Qed.

End shader_facts.

(** * The texture helpers *)

Section texture_facts.
Import webgl.
Implicit Types (gl : GLenum) (h : Host) (tr : list event) (options : TextureOptions).

(** [createTexture] on a context that creates no texture throws without
    another call.  Otherwise it returns the texture, having bound it and
    then made exactly the calls of [reuploadWithFlip] with the option
    [flipY] (false when left out), followed by those of
    [applyTextureParams] with every option defined: [CLAMP_TO_EDGE] and
    [LINEAR] where left out. *)
Theorem createTexture_composes gl image options h (s : host_state h)
    h1 (s1 : host_state h1) h2 (s2 : host_state h2) :
  let '(tr, o) := run h (createTexture gl image options) s in
  match (host_answer h gl_createTexture s).1 with
  | None => tr = [Event gl_createTexture None] ∧ o = inl "WebGL 텍스처 객체 생성 실패"
  | Some tex =>
      o = inr tex ∧
      tr = Event gl_createTexture (Some tex) ::
           Event (gl_bindTexture (TEXTURE_2D gl) tex) () ::
           (run h1 (reuploadWithFlip gl image (default false (flipY options))) s1).1 ++
           (run h2 (applyTextureParams gl (with_defaults gl options)) s2).1
  end.
Proof. unfold createTexture, reuploadWithFlip, applyTextureParams. host_answers; done. Qed.

(** [applyTextureParams] never throws, and its calls are exactly these, in
    this order: [texParameteri] on [TEXTURE_2D] of [TEXTURE_WRAP_S] with
    [wrapS], of [TEXTURE_WRAP_T] with [wrapT], of [TEXTURE_MIN_FILTER] with
    [minFilter] and of [TEXTURE_MAG_FILTER] with [magFilter], each made
    once if the option is defined and not at all if it is not.  With no
    option defined it makes no call. *)
Theorem applyTextureParams_calls gl options h (s : host_state h) :
  run h (applyTextureParams gl options) s =
    (parameter_call gl (TEXTURE_WRAP_S gl) (wrapS options) ++
     parameter_call gl (TEXTURE_WRAP_T gl) (wrapT options) ++
     parameter_call gl (TEXTURE_MIN_FILTER gl) (minFilter options) ++
     parameter_call gl (TEXTURE_MAG_FILTER gl) (magFilter options),
     inr ()) ∧
  (wrapS options = None → wrapT options = None →
   minFilter options = None → magFilter options = None →
   run h (applyTextureParams gl options) s = ([], inr ())).
Proof.
  unfold applyTextureParams.
  destruct options as [f [ws|] [wt|] [mi|] [ma|]]; host_answers; by split.
Qed.

End texture_facts.

(** * The router *)

Section router_facts.
Import router.
Context {RouteRenderer HTMLElement : Type}.
Implicit Types (router : Router RouteRenderer HTMLElement) (r : RouteRenderer)
  (el : HTMLElement) (e : RouteEntry RouteRenderer).

(** [navigate] treats the empty hash and ["#"] as ["#/"], and these two
    are the only hashes on which it replaces the history entry; before
    [registerRoutes] has set the outlet it does nothing. *)
Theorem navigate_empty_hash router el location_hash :
  navigate "" router = navigate "#" router ∧
  (outlet router = Some el →
     navigate "" router = history_replaceState "#/" :: navigate "#/" router) ∧
  (location_hash ≠ "" → location_hash ≠ "#" →
     ∀ url, history_replaceState url ∉ navigate location_hash router) ∧
  (outlet router = None → navigate location_hash router = []).
Proof.
  unfold navigate.
  destruct (outlet router) as [o|];
    [|split_and!; try done; intros; apply not_elem_of_nil].
  split_and!.
  { vm_compute normalised. by rewrite !decide_True by auto. }
  { intros _. vm_compute normalised.
    rewrite decide_True by auto. by rewrite decide_False by (intros [?|?]; done). }
  2: done.
  intros ? ? url. rewrite decide_False by (intros [?|?]; done). cbn.
  intros Hin. apply elem_of_cons in Hin as [?|Hin]; [done|].
  repeat case_match; apply list_elem_of_singleton in Hin; done.
Qed.

(** With the outlet set, [navigate] calls a renderer [r] exactly when [r]
    renders the first route whose path is the normalised hash, or when no
    route has that path and [r] is the not-found renderer: paths are
    compared as whole strings, and a later route with the same path is
    never rendered. *)
Theorem navigate_first_match router el location_hash r :
  outlet router = Some el →
  call_renderer r el ∈ navigate location_hash router ↔
    (∃ i e, routes router !! i = Some e ∧ render e = r ∧
            path e = normalised location_hash ∧
            ∀ j e', routes router !! j = Some e' → (j < i)%nat →
                    path e' ≠ normalised location_hash) ∨
    ((∀ e, e ∈ routes router → path e ≠ normalised location_hash) ∧
     notFoundRenderer router = Some r).
Proof.
  intros Hel. unfold navigate. rewrite Hel.
  rewrite elem_of_app, elem_of_cons.
  destruct (list_find _ _) as [[i e]|] eqn:Hfind.
  - apply list_find_Some in Hfind as (Hi & He & Hfirst).
    rewrite list_elem_of_singleton. split.
    + intros [Hin | [? | [= ->]]]; [| done |].
      { case_decide; [apply list_elem_of_singleton in Hin; done
                     | by apply elem_of_nil in Hin]. }
      left. by exists i, e.
    + intros [(i' & e' & Hi' & <- & He' & Hfirst') | [Hnone _]].
      * right; right. f_equal.
        destruct (Nat.lt_trichotomy i i') as [? | [-> | ?]].
        -- by destruct (Hfirst' i e).
        -- congruence.
        -- by destruct (Hfirst i' e').
      * destruct (Hnone e); [by eapply list_elem_of_lookup_2 | done].
  - apply list_find_None in Hfind. split.
    + intros [Hin | [? | Hin]]; [| done |].
      { case_decide; [apply list_elem_of_singleton in Hin; done
                     | by apply elem_of_nil in Hin]. }
      right. split; [by apply Forall_forall|].
      destruct (notFoundRenderer router); apply list_elem_of_singleton in Hin; congruence.
    + intros [(i' & e' & Hi' & <- & He' & _) | [_ ->]].
      * rewrite Forall_forall in Hfind.
        destruct (Hfind e'); [by eapply list_elem_of_lookup_2 | done].
      * right; right. by apply list_elem_of_singleton.
Qed.

End router_facts.

(** ** These statements at concrete inputs *)

Section page_concrete_inputs.
Import webgl router.

(** On a context that compiles and links everything, the program is
    object 3 and the shaders 1 and 2 have been deleted. *)
Lemma createProgram_returns_3 :
  (run (scripted (λ _, true) true) (createProgram WebGL "void main(){}" "void main(){}") 0).2
    = inr 3 ∧
  omap shader_deleted
    (run (scripted (λ _, true) true) (createProgram WebGL "void main(){}" "void main(){}") 0).1
    = [1; 2].
Proof.
  destruct (createProgram_returns WebGL "void main(){}" "void main(){}"
              (scripted (λ _, true) true) 0 _ 3 eq_refl) as (vs & fs & Hc & Hd & _).
  split; [reflexivity|].
  assert ([1; 2] = [vs; fs]) as Heq by exact Hc.
  injection Heq as <- <-. exact Hd.
Defined.

(** On a context that compiles shader 1 but not shader 2, shader 1 is
    created and never deleted. *)
Lemma createProgram_throws_fragment :
  omap shader_created
    (run (scripted (λ shader, shader =? 1) true)
       (createProgram WebGL "void main(){}" "void main(){") 0).1 = [1; 2] ∧
  omap shader_deleted
    (run (scripted (λ shader, shader =? 1) true)
       (createProgram WebGL "void main(){}" "void main(){") 0).1 = [2].
Proof.
  edestruct (createProgram_throws WebGL "void main(){}" "void main(){"
               (scripted (λ shader, shader =? 1) true) 0)
    as (_ & Hd & Hc); [vm_compute; reflexivity|].
  exact (conj Hc Hd).
Defined.

(** The routes of [bootstrap]: the empty hash renders the home page. *)
Lemma navigate_first_match_home :
  call_renderer "renderHome" 0 ∈ navigate "" main.bootstrap.
Proof.
  apply (navigate_first_match main.bootstrap 0 "" "renderHome" eq_refl).
  left. exists 0%nat, {| path := "#/"; render := "renderHome" |}.
  split_and!; [reflexivity | reflexivity | reflexivity | intros; lia].
Defined.

End page_concrete_inputs.
